(** * Substream serialization protocol and the map functions of ClickHouse

    A shallow embedding of
    - [src/DataTypes/Serializations/ISerialization.cpp]: substream paths, the
      names of streams and subcolumns, the substreams cache, the generic
      stream enumeration and [createFromPath];
    - [src/Functions/map.cpp]: the functions [map], [mapKeys], [mapValues].

    C++ references and smart pointers that may be null are [option]s, a
    [std::vector] is a [list], [size_t] and [UInt64] counters are [N] with
    their wrap-around at [2^64] written out, a [std::unordered_map] keyed by
    [String] is a [gmap string], and a thrown exception is the [Thrown]
    outcome of a call. *)

From Stdlib Require Import NArith Ascii DecimalString.
From stdpp Require Import gmap strings list.

Local Open Scope N_scope.
Local Open Scope nat_scope.

(** ** Exceptions *)

(** The error codes named in the two files ([extern const int] there). *)
Inductive ErrorCode : Set :=
  | NUMBER_OF_ARGUMENTS_DOESNT_MATCH
  | ILLEGAL_TYPE_OF_ARGUMENT
  | MULTIPLE_STREAMS_REQUIRED
  | OTHER_ERROR (code : N).

Record Exception : Set := mkException { code : ErrorCode; message : string }.

(** What a call does: it returns a value or it throws. *)
Inductive outcome (A : Type) : Type :=
  | Returned (a : A)
  | Thrown (e : Exception).
Arguments Returned {A} a.
Arguments Thrown {A} e.

(** ** Machine integers *)

(** [size_t] and [IColumn::Offset] (UInt64) are 64 bits wide. *)
Definition size_t_range : N := 2 ^ 64.
Definition wrap64 (n : N) : N := n mod size_t_range.

Lemma wrap64_small (n : N) : (n < size_t_range)%N -> wrap64 n = n.
Proof. intros H. unfold wrap64. now apply N.mod_small. Qed.

(** Modelled from the spec: [toString] of IO/WriteHelpers.h is not among the
    sources; the spec writes the suffix of an ArraySizes node as [.size<N>],
    the array level [N] in decimal. *)
Definition toString (n : N) : string := NilEmpty.string_of_uint (N.to_uint n).

(** ** Data types, columns, serializations *)

(** The data types the two files name, and the wrappers of the spec; their
    declarations (DataTypes/*.h) are not among the sources. *)
Inductive DataType : Set :=
  | DataTypeNothing
  | DataTypeUInt8
  | DataTypeInt32
  | DataTypeString
  | DataTypeFixedString (n : N)
  | DataTypeNullable (nested : DataType)
  | DataTypeArray (nested : DataType)
  | DataTypeMap (key_type value_type : DataType).

Global Instance DataType_eq_dec : EqDecision DataType.
Proof. solve_decision. Defined.

Set Warnings "-register-all".

Section Columns.
(** A value of one row of a column ([Field] in the code base). *)
Context {Field : Type}.

(** Columns, as map.cpp builds and reads them (Columns/*.h is not among the
    sources). [ColumnVector rows] stands for any full column of values
    (ColumnVector, ColumnString, ...), seen as the list of its rows, the
    way [IColumn::operator[]] reads them. *)
Inductive IColumn : Type :=
  | ColumnVector (rows : list Field)
  | ColumnConst (value : Field) (s : nat)
  | ColumnTuple (columns : list IColumn)
  | ColumnArray (data : IColumn) (offsets : list N)
  | ColumnMap (nested : IColumn).
End Columns.
Arguments IColumn Field : clear implicits.

(** Modelled from the spec: ISerialization.h is not among the sources; the
    kinds of node are those of spec 3, the ones ISerialization.cpp tests. *)
Inductive SubstreamType : Set :=
  | ArrayElements
  | ArraySizes
  | NullMap
  | TupleElement
  | DictionaryKeys
  | DictionaryIndexes
  | SparseOffsets
  | Regular.

Global Instance SubstreamType_eq_dec : EqDecision SubstreamType.
Proof. solve_decision. Defined.

(** The node a composite serialization pushes for one structural child. *)
Record StructuralRole : Set := mkRole {
  role_type : SubstreamType;
  role_name : string;
  role_escape : bool }.

(** The serialization objects. [SerializationPlain] is a type with one stream,
    which keeps [ISerialization::enumerateStreams]; [SerializationComposite]
    stands for the overrides (array, tuple, map, nullable, ...), which are not
    among the sources: [children] lists the structural children with the node
    pushed for each. *)
Inductive Serialization : Set :=
  | SerializationPlain (name : string)
  | SerializationComposite (name : string)
      (children : list (StructuralRole * Serialization)).

(** ** ISerialization.cpp *)

Module ISerialization.
Section Protocol.
Context {Field : Type}.

(** [ISubcolumnCreator]: the three overloads of [create]. *)
Record ISubcolumnCreator : Type := mkCreator {
  create_type : DataType -> DataType;
  create_serialization : Serialization -> Serialization;
  create_column : IColumn Field -> IColumn Field }.

(** [SubstreamData]: four pointers, each of which may be null. *)
Record SubstreamData : Type := mkData {
  type : option DataType;
  column : option (IColumn Field);
  serialization : option Serialization;
  creator : option ISubcolumnCreator }.

Definition no_data : SubstreamData := mkData None None None None.

(** [Substream], with the fields ISerialization.cpp reads; its field [type]
    is [substream_type] here. *)
Record Substream : Type := mkSubstream {
  substream_type : SubstreamType;
  tuple_element_name : string;
  escape_tuple_delimiter : bool;
  data : SubstreamData }.

(** The converting constructor [Substream(Type)], which [push_back] of a
    kind calls: no element name, no data, the escape flag set. *)
Definition Substream_of (t : SubstreamType) : Substream :=
  mkSubstream t "" true no_data.

Abbreviation SubstreamPath := (list Substream).

(** [std::vector] operations used on a path. *)
Definition push_back (path : SubstreamPath) (x : Substream) : SubstreamPath :=
  path ++ [x].

Definition pop_back (path : SubstreamPath) : SubstreamPath := removelast path.

(** [path.back().data = d]. *)
Definition set_back_data (path : SubstreamPath) (d : SubstreamData)
  : SubstreamPath :=
  match last path with
  | Some b =>
      removelast path ++
        [mkSubstream (substream_type b) (tuple_element_name b)
           (escape_tuple_delimiter b) d]
  | None => path
  end.

(** *** Names of streams and subcolumns *)

(** [escapeForFileName] (Common/escapeForFileName.h) and
    [Nested::extractTableName] (DataTypes/NestedUtils.h) are not among the
    sources: the naming functions take them as they are. *)
Variable escapeForFileName : string -> string.
Variable extractTableName : string -> string.

(** One iteration of the loop of [getNameForSubstreamPath], on the pair of
    [stream_name] and [array_level]. *)
Definition name_step (escape : bool) (st : string * N) (it : Substream)
  : string * N :=
  let '(stream_name, array_level) := st in
  match substream_type it with
  | NullMap => (stream_name +:+ ".null", array_level)
  | ArraySizes => (stream_name +:+ ".size" +:+ toString array_level, array_level)
  | ArrayElements => (stream_name, wrap64 (array_level + 1))
  | DictionaryKeys => (stream_name +:+ ".dict", array_level)
  | SparseOffsets => (stream_name +:+ ".sparse.idx", array_level)
  | TupleElement =>
      (stream_name +:+
         ((if escape && escape_tuple_delimiter it
           then escapeForFileName "." else ".")
          +:+ escapeForFileName (tuple_element_name it)),
       array_level)
  | DictionaryIndexes | Regular => (stream_name, array_level)
  end.

(** The loop, from [begin] to [end], started with [array_level = 0]. *)
Definition name_walk (escape : bool) (stream_name : string)
    (range : SubstreamPath) : string * N :=
  fold_left (name_step escape) range (stream_name, 0%N).

Definition getNameForSubstreamPath (stream_name : string)
    (range : SubstreamPath) (escape : bool) : string :=
  fst (name_walk escape stream_name range).

Definition is_single_array_sizes (path : SubstreamPath) : bool :=
  match path with
  | [it] => bool_decide (substream_type it = ArraySizes)
  | _ => false
  end.

Definition getFileNameForStream (name_in_storage : string)
    (path : SubstreamPath) : string :=
  let nested_storage_name := extractTableName name_in_storage in
  let stream_name :=
    if negb (String.eqb name_in_storage nested_storage_name)
       && is_single_array_sizes path
    then escapeForFileName nested_storage_name
    else escapeForFileName name_in_storage in
  getNameForSubstreamPath stream_name path true.

(** [substr(1)] on a string that is not empty. *)
Definition substr1 (s : string) : string :=
  match s with
  | EmptyString => EmptyString
  | String _ rest => rest
  end.

(** [getSubcolumnNameForStream(path, prefix_len)]; the range is
    [path.begin(), path.begin() + prefix_len), for a [prefix_len] that does
    not exceed the size of the path. *)
Definition getSubcolumnNameForStream_prefix (path : SubstreamPath)
    (prefix_len : nat) : string :=
  substr1 (getNameForSubstreamPath "" (take prefix_len path) false).

Definition getSubcolumnNameForStream (path : SubstreamPath) : string :=
  getSubcolumnNameForStream_prefix path (length path).

(** [getArrayLevel]. *)
Definition getArrayLevel (path : SubstreamPath) : N :=
  fold_left
    (fun level elem =>
       wrap64 (level + if bool_decide (substream_type elem = ArrayElements)
                       then 1 else 0)%N)
    path 0%N.

(** *** Substreams cache *)

(** [ColumnPtr]: a pointer to a column, null or not. *)
Abbreviation ColumnPtr := (option (IColumn Field)).

(** [SubstreamsCache] is [std::unordered_map<String, ColumnPtr>]; the
    functions take a pointer to it, which may be null. *)
Abbreviation SubstreamsCache := (gmap string ColumnPtr).

(** [emplace]: no insertion when the key is there already. *)
Definition emplace (cache : SubstreamsCache) (key : string) (value : ColumnPtr)
  : SubstreamsCache :=
  match cache !! key with
  | Some _ => cache
  | None => <[key := value]> cache
  end.

(** [addToSubstreamsCache]; the result is the cache behind the pointer after
    the call. *)
Definition addToSubstreamsCache (cache : option SubstreamsCache)
    (path : SubstreamPath) (column : ColumnPtr) : option SubstreamsCache :=
  match cache, path with
  | Some m, _ :: _ => Some (emplace m (getSubcolumnNameForStream path) column)
  | _, _ => cache
  end.

Definition getFromSubstreamsCache (cache : option SubstreamsCache)
    (path : SubstreamPath) : ColumnPtr :=
  match cache, path with
  | Some m, _ :: _ =>
      match m !! getSubcolumnNameForStream path with
      | Some found => found
      | None => None
      end
  | _, _ => None
  end.

(** *** Enumeration of streams *)

(** [StreamCallback]: it reads the path (a const reference) and acts on the
    state [S] it captured; it returns or throws. *)
Definition StreamCallback (S : Type) : Type :=
  SubstreamPath -> S -> outcome unit * S.

(** [ISerialization::enumerateStreams(path, callback, type, column)] of the
    serialization [self]. The result carries the path as the caller finds it
    after the call: when the callback throws, [pop_back] is not reached. *)
Definition enumerateStreams {S : Type} (self : Serialization)
    (path : SubstreamPath) (callback : StreamCallback S)
    (type_ : option DataType) (column_ : ColumnPtr) (s : S)
  : outcome unit * SubstreamPath * S :=
  let path := push_back path (Substream_of Regular) in
  let path := set_back_data path (mkData type_ column_ (Some self) None) in
  match callback path s with
  | (Returned _, s') => (Returned tt, pop_back path, s')
  | (Thrown e, s') => (Thrown e, path, s')
  end.

(** [enumerateStreams(callback, path)]. *)
Definition enumerateStreams_untyped {S : Type} (self : Serialization)
    (callback : StreamCallback S) (path : SubstreamPath) (s : S)
  : outcome unit * SubstreamPath * S :=
  enumerateStreams self path callback None None s.

(** What a composite serialization attaches to the node it pushes for a
    child: the type and value of the child and the transform that rebuilds
    the wrapper. It is supplied by the composite type. *)
Variable wrapper_data :
  Serialization -> StructuralRole -> option DataType -> ColumnPtr ->
  SubstreamData.

(** Modelled from the spec: the overrides of [enumerateStreams] in the
    composite serializations are not among the sources. Spec 4.4: before
    recursing into each structural child they push a node describing the
    structural role, carrying the transform needed to rebuild the wrapper
    from the child's data, call enumerate recursively for the child, then
    pop. A type with one stream runs [enumerateStreams] above. *)
Fixpoint enumerate {S : Type} (ser : Serialization) (path : SubstreamPath)
    (callback : StreamCallback S) (type_ : option DataType)
    (column_ : ColumnPtr) (s : S) {struct ser}
  : outcome unit * SubstreamPath * S :=
  match ser with
  | SerializationPlain _ => enumerateStreams ser path callback type_ column_ s
  | SerializationComposite _ children =>
      (fix each_child (cs : list (StructuralRole * Serialization))
           (path : SubstreamPath) (s : S) {struct cs}
         : outcome unit * SubstreamPath * S :=
         match cs with
         | [] => (Returned tt, path, s)
         | (role, child) :: rest =>
             let d := wrapper_data ser role type_ column_ in
             let path :=
               push_back path
                 (mkSubstream (role_type role) (role_name role)
                    (role_escape role) d) in
             match enumerate child path callback
                     (type d) (column d) s with
             | (Returned _, path, s') => each_child rest (pop_back path) s'
             | (Thrown e, path, s') => (Thrown e, path, s')
             end
         end) children path s
  end.

(** The callback that only records the paths it is called with. *)
Definition record_path : StreamCallback (list SubstreamPath) :=
  fun path log => (Returned tt, log ++ [path]).

(** *** The single-stream entry points *)

(** [IColumn::getName] is not among the sources. *)
Variable getName : IColumn Field -> string.

(** [ISerialization::serializeBinaryBulk]: the result carries the write
    buffer after the call. *)
Definition serializeBinaryBulk {WriteBuffer : Type} (column : IColumn Field)
    (ostr : WriteBuffer) (offset limit : N) : outcome unit * WriteBuffer :=
  (Thrown
     (mkException MULTIPLE_STREAMS_REQUIRED
        ("Column " +:+ getName column
         +:+ " must be serialized with multiple streams")),
   ostr).

(** [ISerialization::deserializeBinaryBulk]: the result carries the column
    and the read buffer after the call. *)
Definition deserializeBinaryBulk {ReadBuffer double : Type}
    (column : IColumn Field) (istr : ReadBuffer) (limit : N)
    (avg_value_size_hint : double)
  : outcome unit * IColumn Field * ReadBuffer :=
  (Thrown
     (mkException MULTIPLE_STREAMS_REQUIRED
        ("Column " +:+ getName column
         +:+ " must be deserialized with multiple streams")),
   column, istr).

(** *** createFromPath *)

(** One iteration of the loop of [createFromPath] with a creator at hand:
    each of the three pointers is rewrapped unless it is null. *)
Definition apply_creator (c : ISubcolumnCreator) (res : SubstreamData)
  : SubstreamData :=
  mkData (create_type c <$> type res)
         (create_column c <$> column res)
         (create_serialization c <$> serialization res)
         (creator res).

(** The loop [for (i = prefix_len - 1; i >= 0; --i)]; the argument [n] is
    [i + 1]. *)
Fixpoint createFromPath_loop (path : SubstreamPath) (n : nat)
    (res : SubstreamData) : SubstreamData :=
  match n with
  | 0 => res
  | S i =>
      createFromPath_loop path i
        match path !! i with
        | Some node =>
            match creator (data node) with
            | Some c => apply_creator c res
            | None => res
            end
        | None => res
        end
  end.

(** [res.creator.reset()]. *)
Definition reset_creator (d : SubstreamData) : SubstreamData :=
  mkData (type d) (column d) (serialization d) None.

(** [createFromPath]; [None] when [assert(prefix_len < path.size())] fails. *)
Definition createFromPath (path : SubstreamPath) (prefix_len : nat)
  : option SubstreamData :=
  match path !! prefix_len with
  | Some node =>
      Some (createFromPath_loop path prefix_len (reset_creator (data node)))
  | None => None
  end.

(** The composition as the spec words it: the transforms of the nodes
    [prefix_len - 1] down to [0], nodes without a transform left out, applied
    in that order to the data of node [prefix_len] with its transform
    cleared. *)
Definition transforms_outwards (path : SubstreamPath) (prefix_len : nat)
  : list ISubcolumnCreator :=
  omap (fun node => creator (data node)) (rev (take prefix_len path)).

Definition composeAt_spec (path : SubstreamPath) (prefix_len : nat)
  : option SubstreamData :=
  match path !! prefix_len with
  | Some node =>
      Some (fold_left (fun res c => apply_creator c res)
              (transforms_outwards path prefix_len)
              (reset_creator (data node)))
  | None => None
  end.

(** The number of ArrayElements nodes of a range. *)
Definition count_array_elements (range : SubstreamPath) : N :=
  N.of_nat (length (filter (fun e => substream_type e = ArrayElements) range)).

(** *** Properties of the names *)

Lemma count_array_elements_cons (e : Substream) (range : SubstreamPath) :
  count_array_elements (e :: range) =
    ((if bool_decide (substream_type e = ArrayElements) then 1 else 0)
     + count_array_elements range)%N.
Proof.
  unfold count_array_elements. rewrite filter_cons.
  case_bool_decide; destruct (decide _); try contradiction; simpl; lia.
Qed.

Lemma count_array_elements_le (range : SubstreamPath) :
  (count_array_elements range <= N.of_nat (length range))%N.
Proof.
  unfold count_array_elements.
  pose proof (length_filter (fun e => substream_type e = ArrayElements) range).
  lia.
Qed.

Lemma name_step_level (escape : bool) (stream_name : string) (level : N)
    (it : Substream) :
  snd (name_step escape (stream_name, level) it)
  = if bool_decide (substream_type it = ArrayElements)
    then wrap64 (level + 1) else level.
Proof. unfold name_step. now destruct (substream_type it). Qed.

(** The array level the loop holds after a range, as long as it stays below
    [2^64]. *)
Lemma name_walk_level (escape : bool) (range : SubstreamPath) :
  forall (stream_name : string) (level : N),
    (level + count_array_elements range < size_t_range)%N ->
    snd (fold_left (name_step escape) range (stream_name, level))
    = (level + count_array_elements range)%N.
Proof.
  induction range as [|e range IH]; intros stream_name level Hlt.
  - unfold count_array_elements. simpl. lia.
  - rewrite count_array_elements_cons in *. cbn [fold_left].
    pose proof (name_step_level escape stream_name level e) as Hstep.
    destruct (name_step escape (stream_name, level) e) as [name' level'].
    simpl in Hstep. subst level'.
    case_bool_decide.
    + rewrite wrap64_small by lia. rewrite IH; lia.
    + rewrite IH; lia.
Qed.

Lemma getArrayLevel_fold (range : SubstreamPath) :
  forall level : N,
    (level + count_array_elements range < size_t_range)%N ->
    fold_left
      (fun level elem =>
         wrap64 (level + if bool_decide (substream_type elem = ArrayElements)
                         then 1 else 0)%N)
      range level
    = (level + count_array_elements range)%N.
Proof.
  induction range as [|e range IH]; intros level Hlt.
  - unfold count_array_elements. simpl. lia.
  - rewrite count_array_elements_cons in *. simpl.
    rewrite wrap64_small by (case_bool_decide; lia).
    rewrite IH by lia. lia.
Qed.

Lemma getArrayLevel_count (range : SubstreamPath) :
  (N.of_nat (length range) < size_t_range)%N ->
  getArrayLevel range = count_array_elements range.
Proof.
  intros H. unfold getArrayLevel. pose proof (count_array_elements_le range).
  rewrite getArrayLevel_fold; lia.
Qed.

Lemma name_walk_snoc (escape : bool) (stream_name : string)
    (range : SubstreamPath) (it : Substream) :
  name_walk escape stream_name (range ++ [it])
  = name_step escape (name_walk escape stream_name range) it.
Proof. unfold name_walk. now rewrite fold_left_app. Qed.

(** C1: for the path of one TupleElement node named b with its escape flag
    set, the file name of the stream of column a is a, then the escaped dot,
    then the escaped b, and the subcolumn name, which is computed with the
    escaping of the delimiter off and the leading dot cut, is b. The names a
    and b are those the escaping leaves as they are. *)
Theorem tuple_element_stream_and_subcolumn_name (d : SubstreamData) :
  escapeForFileName "a" = "a" ->
  escapeForFileName "b" = "b" ->
  let path := [mkSubstream TupleElement "b" true d] in
  getFileNameForStream "a" path
  = "a" +:+ escapeForFileName "." +:+ escapeForFileName "b"
  /\ getSubcolumnNameForStream path = "b"
  /\ getSubcolumnNameForStream path
     = substr1 (getNameForSubstreamPath "" path false).
Proof.
  intros Ha Hb path. repeat split.
  - unfold getFileNameForStream, getNameForSubstreamPath. simpl.
    rewrite andb_false_r. now rewrite Ha.
  - unfold getSubcolumnNameForStream, getSubcolumnNameForStream_prefix,
      getNameForSubstreamPath.
    simpl. now rewrite Hb.
Qed.

(** C2: on a path of an ArrayElements, an ArrayElements and an ArraySizes
    node the array level at the ArraySizes node is 2 and the suffix added
    for that node is .size2. In general the suffix added for an ArraySizes
    node is .size followed by the number of ArrayElements nodes before it,
    and an ArrayElements node adds nothing to the name. *)
Theorem array_sizes_suffix :
  (forall (e1 e2 e3 : Substream) (stream_name : string) (escape : bool),
      substream_type e1 = ArrayElements ->
      substream_type e2 = ArrayElements ->
      substream_type e3 = ArraySizes ->
      snd (name_walk escape stream_name [e1; e2]) = 2%N
      /\ getArrayLevel [e1; e2; e3] = 2%N
      /\ getNameForSubstreamPath stream_name [e1; e2; e3] escape
         = getNameForSubstreamPath stream_name [e1; e2] escape +:+ ".size2"
      /\ getFileNameForStream stream_name [e1; e2; e3]
         = escapeForFileName stream_name +:+ ".size2")
  /\ (forall (before : SubstreamPath) (it : Substream) (stream_name : string)
        (escape : bool),
      (N.of_nat (length before) < size_t_range)%N ->
      (substream_type it = ArraySizes ->
       snd (name_walk escape stream_name before) = count_array_elements before
       /\ getNameForSubstreamPath stream_name (before ++ [it]) escape
          = getNameForSubstreamPath stream_name before escape
            +:+ ".size" +:+ toString (count_array_elements before))
      /\ (substream_type it = ArrayElements ->
          getNameForSubstreamPath stream_name (before ++ [it]) escape
          = getNameForSubstreamPath stream_name before escape)).
Proof.
  split.
  - intros e1 e2 e3 stream_name escape H1 H2 H3.
    unfold getFileNameForStream, getNameForSubstreamPath, getArrayLevel,
      name_walk.
    simpl. unfold name_step. rewrite H1, H2, H3. simpl.
    repeat split; try reflexivity.
    rewrite andb_false_r. reflexivity.
  - intros before it stream_name escape Hlen.
    pose proof (count_array_elements_le before) as Hle.
    unfold getNameForSubstreamPath. rewrite name_walk_snoc.
    assert (Hlevel : snd (name_walk escape stream_name before)
                     = count_array_elements before).
    { unfold name_walk. rewrite name_walk_level; lia. }
    destruct (name_walk escape stream_name before) as [name level] eqn:Hw.
    simpl in Hlevel. subst level. split; intros Hit.
    + split; [reflexivity|]. unfold name_step. now rewrite Hit.
    + unfold name_step. now rewrite Hit.
Qed.

(** *** Properties of the enumeration *)

(** Induction on a serialization and, with it, on the children of a
    composite one. *)
Lemma Serialization_children_ind (P : Serialization -> Prop) :
  (forall name, P (SerializationPlain name)) ->
  (forall name children,
      Forall (fun rc => P (snd rc)) children ->
      P (SerializationComposite name children)) ->
  forall ser, P ser.
Proof.
  intros Hplain Hcomposite. fix IH 1. intros [name | name children].
  - apply Hplain.
  - apply Hcomposite.
    induction children as [|[role child] rest IHrest]; constructor.
    + apply IH.
    + apply IHrest.
Qed.

Lemma pop_back_push_back (path : SubstreamPath) (x : Substream) :
  pop_back (push_back path x) = path.
Proof. unfold pop_back, push_back. apply removelast_last. Qed.

Lemma set_back_data_push_back (path : SubstreamPath) (x : Substream)
    (d : SubstreamData) :
  set_back_data (push_back path x) d
  = push_back path
      (mkSubstream (substream_type x) (tuple_element_name x)
         (escape_tuple_delimiter x) d).
Proof.
  unfold set_back_data, push_back. rewrite last_snoc.
  now rewrite removelast_last.
Qed.

(** The node of [ISerialization::enumerateStreams]. *)
Definition regular_node (self : Serialization) (type_ : option DataType)
    (column_ : ColumnPtr) : Substream :=
  mkSubstream Regular "" true (mkData type_ column_ (Some self) None).

Lemma enumerateStreams_unfold {S : Type} (self : Serialization)
    (path : SubstreamPath) (callback : StreamCallback S)
    (type_ : option DataType) (column_ : ColumnPtr) (s : S) :
  enumerateStreams self path callback type_ column_ s
  = match callback (path ++ [regular_node self type_ column_]) s with
    | (Returned _, s') => (Returned tt, path, s')
    | (Thrown e, s') =>
        (Thrown e, path ++ [regular_node self type_ column_], s')
    end.
Proof.
  unfold enumerateStreams. rewrite set_back_data_push_back. simpl.
  fold (regular_node self type_ column_). unfold push_back at 1 3.
  destruct (callback _ s) as [[[]|e] s']; [|reflexivity].
  now rewrite pop_back_push_back.
Qed.

(** What a call leaves of the path: the path itself when it returns, the
    path and the nodes pushed since when it throws. *)
Definition path_after (path : SubstreamPath)
    {S : Type} (result : outcome unit * SubstreamPath * S) : Prop :=
  match result with
  | (Returned _, path', _) => path' = path
  | (Thrown _, path', _) => exists pushed, pushed <> [] /\ path' = path ++ pushed
  end.

Lemma enumerate_path_after {S : Type} (callback : StreamCallback S)
    (ser : Serialization) :
  forall (path : SubstreamPath) (type_ : option DataType) (column_ : ColumnPtr)
         (s : S),
    path_after path (enumerate ser path callback type_ column_ s).
Proof.
  induction ser as [name | name children IH] using Serialization_children_ind;
    intros path type_ column_ s.
  - simpl. rewrite enumerateStreams_unfold.
    destruct (callback _ s) as [[[]|e] s']; simpl; [reflexivity|].
    eexists. split; [|reflexivity]. discriminate.
  - simpl.
    generalize (SerializationComposite name children) as self.
    intros self. revert path s.
    induction IH as [|[role child] rest Hchild _ IHrest]; intros path s.
    + reflexivity.
    + simpl in Hchild. cbn beta iota.
      match goal with
      | |- context [enumerate child ?p callback ?t ?c s] =>
          specialize (Hchild p t c s);
          destruct (enumerate child p callback t c s) as [[[[]|e] path'] s']
      end; simpl in Hchild.
      * subst path'. rewrite pop_back_push_back. apply IHrest.
      * destruct Hchild as (pushed & Hne & ->). simpl.
        unfold push_back. rewrite <- app_assoc. eexists. split; [|reflexivity].
        discriminate.
Qed.

(** C3: a call of enumerate, of a type with one stream or of a composite
    one, that returns leaves the path of the caller as it was; a call that
    fails leaves it longer, with the nodes pushed before the failure still on
    it. *)
Theorem enumerate_restores_path_on_return {S : Type}
    (callback : StreamCallback S) (ser : Serialization)
    (path : SubstreamPath) (type_ : option DataType) (column_ : ColumnPtr)
    (s : S) (path' : SubstreamPath) (s' : S) :
  (enumerate ser path callback type_ column_ s = (Returned tt, path', s') ->
   path' = path)
  /\ (enumerateStreams ser path callback type_ column_ s
      = (Returned tt, path', s') ->
      path' = path)
  /\ (forall e,
         enumerate ser path callback type_ column_ s = (Thrown e, path', s') ->
         exists pushed, pushed <> [] /\ path' = path ++ pushed).
Proof.
  pose proof (enumerate_path_after callback ser path type_ column_ s) as H.
  repeat split.
  - intros Heq. rewrite Heq in H. exact H.
  - intros Heq. rewrite enumerateStreams_unfold in Heq.
    destruct (callback _ s) as [[[]|e] s'']; congruence.
  - intros e Heq. rewrite Heq in H. exact H.
Qed.

(** C7: for a type with one stream, enumerate calls the visitor once, and
    the path it is called with is the path of the caller and one Regular node
    after it, which carries the type and the value given, the serialization
    itself as the codec and no transform; on a walk started with the empty
    path, that path has length 1. *)
Theorem enumerateStreams_visits_once (self : Serialization)
    (type_ : option DataType) (column_ : ColumnPtr) :
  let node := mkSubstream Regular "" true
                (mkData type_ column_ (Some self) None) in
  enumerateStreams self [] record_path type_ column_ []
  = (Returned tt, [], [[node]])
  /\ (forall name,
         enumerate (SerializationPlain name) [] record_path type_ column_ []
         = (Returned tt, [],
            [[mkSubstream Regular "" true
                (mkData type_ column_ (Some (SerializationPlain name)) None)]]))
  /\ (forall path log,
         enumerateStreams self path record_path type_ column_ log
         = (Returned tt, path, log ++ [path ++ [node]]))
  /\ (forall (S : Type) (callback : StreamCallback S) (path : SubstreamPath)
             (s : S),
         snd (enumerateStreams self path callback type_ column_ s)
         = snd (callback (path ++ [node]) s)).
Proof.
  intros node. split; [|split; [|split]].
  - now rewrite enumerateStreams_unfold.
  - intros name. simpl. now rewrite enumerateStreams_unfold.
  - intros path log. now rewrite enumerateStreams_unfold.
  - intros S callback path s. rewrite enumerateStreams_unfold.
    fold node. now destruct (callback _ s) as [[[]|e] s'].
Qed.

(** C6: the single-stream entry points of ISerialization, which a type that
    needs several streams does not override, throw MULTIPLE_STREAMS_REQUIRED
    with a message that names the column, whatever the column is, and leave
    the buffer and the column as they were. *)
Theorem single_stream_entry_points_throw {WriteBuffer ReadBuffer double : Type}
    (column_ : IColumn Field) (ostr : WriteBuffer) (istr : ReadBuffer)
    (offset limit : N) (avg_value_size_hint : double) :
  (exists e,
      serializeBinaryBulk column_ ostr offset limit = (Thrown e, ostr)
      /\ code e = MULTIPLE_STREAMS_REQUIRED
      /\ exists before after,
          message e = before +:+ getName column_ +:+ after)
  /\ (exists e,
         deserializeBinaryBulk column_ istr limit avg_value_size_hint
         = (Thrown e, column_, istr)
         /\ code e = MULTIPLE_STREAMS_REQUIRED
         /\ exists before after,
             message e = before +:+ getName column_ +:+ after).
Proof.
  split; eexists; (split; [reflexivity|]); (split; [reflexivity|]);
    eexists; eexists; reflexivity.
Qed.

(** *** Properties of the cache *)

(** C5: a store is a no-op when the cache is absent, when the path is empty
    and when the cache holds an entry under the subcolumn name of the path
    already; otherwise it inserts the value under that name. A fetch returns
    absent when the cache is absent or the path is empty. After a store under
    a name the cache had no entry for, a fetch under a path of the same name
    returns the stored value; a fetch under a path of another name returns
    what it returned before the store. *)
Theorem substreams_cache_store_fetch (cache : option SubstreamsCache)
    (m : SubstreamsCache) (path path2 : SubstreamPath) (value : ColumnPtr) :
  addToSubstreamsCache None path value = None
  /\ addToSubstreamsCache cache [] value = cache
  /\ (path <> [] ->
      addToSubstreamsCache (Some m) path value
      = Some match m !! getSubcolumnNameForStream path with
             | Some _ => m
             | None => <[getSubcolumnNameForStream path := value]> m
             end)
  /\ getFromSubstreamsCache None path = None
  /\ getFromSubstreamsCache cache [] = None
  /\ (path <> [] -> path2 <> [] ->
      m !! getSubcolumnNameForStream path = None ->
      getSubcolumnNameForStream path2 = getSubcolumnNameForStream path ->
      getFromSubstreamsCache (addToSubstreamsCache (Some m) path value) path2
      = value)
  /\ (getSubcolumnNameForStream path2 <> getSubcolumnNameForStream path ->
      getFromSubstreamsCache (addToSubstreamsCache (Some m) path value) path2
      = getFromSubstreamsCache (Some m) path2).
Proof.
  split; [reflexivity|]. split; [now destruct cache|].
  split; [now destruct path|]. split; [reflexivity|].
  split; [now destruct cache|]. split.
  - intros Hpath Hpath2 Hfree Hname.
    destruct path as [|e path]; [contradiction|].
    destruct path2 as [|e2 path2]; [contradiction|].
    unfold addToSubstreamsCache, getFromSubstreamsCache, emplace.
    rewrite Hfree, Hname. now rewrite lookup_insert_eq.
  - intros Hname. destruct path as [|e path]; [reflexivity|].
    destruct path2 as [|e2 path2]; [reflexivity|].
    unfold addToSubstreamsCache, getFromSubstreamsCache, emplace.
    destruct (m !! getSubcolumnNameForStream (e :: path)); [reflexivity|].
    now rewrite lookup_insert_ne.
Qed.

(** *** Properties of the composition *)

Lemma createFromPath_loop_fold (path : SubstreamPath) (n : nat) :
  forall res : SubstreamData,
    createFromPath_loop path n res
    = fold_left (fun res c => apply_creator c res)
        (transforms_outwards path n) res.
Proof.
  unfold transforms_outwards.
  induction n as [|i IH]; intros res.
  - now rewrite take_0.
  - simpl createFromPath_loop. rewrite IH.
    destruct (path !! i) as [node|] eqn:Hnode.
    + rewrite (take_S_r _ _ _ Hnode), rev_unit. simpl.
      now destruct (creator (data node)).
    + apply lookup_ge_None in Hnode.
      rewrite !take_ge by lia. reflexivity.
Qed.

(** C4: createFromPath starts from the data of node prefix_len with its
    transform cleared and applies the transforms of the nodes prefix_len - 1
    down to 0 in that order, a node without a transform left out, and
    returns the rewrapped type, value and codec; it returns a result
    whenever prefix_len is below the length of the path. On the path
    NullMap, ArrayElements with the transforms wrap Nullable and wrap Array,
    over a leaf of type Int32, where the ArrayElements node carries the data
    of its depth, of type Array(Int32), prefix 1 yields the type
    Nullable(Array(Int32)), with the value and the codec of that node
    wrapped by the transform of the NullMap node; the data of the leaf stays
    plain Int32, and prefix 2 on the path with the leaf rebuilds the same
    type from it, through wrap Array and then wrap Nullable. *)
Theorem createFromPath_composes :
  (forall (path : SubstreamPath) (prefix_len : nat),
      createFromPath path prefix_len = composeAt_spec path prefix_len
      /\ (prefix_len < length path -> is_Some (createFromPath path prefix_len)))
  /\ (forall (wrap_nullable wrap_array : ISubcolumnCreator)
             (d0 d1 d2 : SubstreamData),
         create_type wrap_nullable = DataTypeNullable ->
         create_type wrap_array = DataTypeArray ->
         creator d0 = Some wrap_nullable ->
         creator d1 = Some wrap_array ->
         type d1 = Some (DataTypeArray DataTypeInt32) ->
         type d2 = Some DataTypeInt32 ->
         let n0 := mkSubstream NullMap "" true d0 in
         let n1 := mkSubstream ArrayElements "" true d1 in
         let leaf := mkSubstream Regular "" true d2 in
         createFromPath [n0; n1] 1
         = Some (mkData (Some (DataTypeNullable (DataTypeArray DataTypeInt32)))
                   (create_column wrap_nullable <$> column d1)
                   (create_serialization wrap_nullable <$> serialization d1)
                   None)
         /\ createFromPath [n0; n1; leaf] 1 = createFromPath [n0; n1] 1
         /\ type (data leaf) = Some DataTypeInt32
         /\ createFromPath [n0; n1; leaf] 2
            = Some (mkData
                      (Some (DataTypeNullable (DataTypeArray DataTypeInt32)))
                      (create_column wrap_nullable
                         <$> (create_column wrap_array <$> column d2))
                      (create_serialization wrap_nullable
                         <$> (create_serialization wrap_array
                                <$> serialization d2))
                      None)).
Proof.
  split.
  - intros path prefix_len. split.
    + unfold createFromPath, composeAt_spec.
      destruct (path !! prefix_len); [|reflexivity].
      now rewrite createFromPath_loop_fold.
    + intros Hlt. unfold createFromPath.
      destruct (lookup_lt_is_Some_2 path prefix_len Hlt) as [node ->].
      eauto.
  - intros wrap_nullable wrap_array d0 d1 d2 Hn Ha H0 H1 Ht1 Ht2 n0 n1 leaf.
    unfold createFromPath. simpl. rewrite H0, H1.
    unfold apply_creator, reset_creator. simpl.
    rewrite Ht1, Ht2, Hn, Ha. simpl. auto.
Qed.

(** *** Further functions of ISerialization.cpp *)

(** [isSpecialCompressionAllowed]: the loop returns at the first node of one
    of the four kinds. *)
Fixpoint isSpecialCompressionAllowed (path : SubstreamPath) : bool :=
  match path with
  | [] => true
  | elem :: rest =>
      if bool_decide (substream_type elem = NullMap)
         || bool_decide (substream_type elem = ArraySizes)
         || bool_decide (substream_type elem = DictionaryIndexes)
         || bool_decide (substream_type elem = SparseOffsets)
      then false
      else isSpecialCompressionAllowed rest
  end.

(** [hasSubcolumnForPath]. *)
Definition hasSubcolumnForPath (path : SubstreamPath) (prefix_len : nat)
  : bool :=
  if (prefix_len =? 0) || (length path <? prefix_len) then false
  else
    let last_elem := prefix_len - 1 in
    match path !! last_elem with
    | Some e =>
        bool_decide (substream_type e = NullMap)
        || bool_decide (substream_type e = TupleElement)
        || bool_decide (substream_type e = ArraySizes)
    | None => false
    end.

(** The nodes that differ at most in their data and their escape flag. *)
Definition same_kind_and_name (a b : Substream) : Prop :=
  substream_type a = substream_type b
  /\ tuple_element_name a = tuple_element_name b.

(** The kinds that [getNameForSubstreamPath] passes over. *)
Definition is_silent (it : Substream) : Prop :=
  substream_type it = Regular \/ substream_type it = DictionaryIndexes.

Global Instance is_silent_dec (it : Substream) : Decision (is_silent it).
Proof. unfold is_silent. apply _. Defined.

(** *** Further properties of the names *)

Lemma append_assoc (s1 s2 s3 : string) :
  (s1 +:+ s2) +:+ s3 = s1 +:+ (s2 +:+ s3).
Proof.
  induction s1 as [|c s1 IH]; [reflexivity|].
  change (String c ((s1 +:+ s2) +:+ s3) = String c (s1 +:+ (s2 +:+ s3))).
  now rewrite IH.
Qed.

Lemma append_empty_r (s : string) : s +:+ "" = s.
Proof.
  induction s as [|c s IH]; [reflexivity|].
  change (String c (s +:+ "") = String c s). now rewrite IH.
Qed.

Lemma append_eq_empty (s t : string) : s +:+ t = "" -> t = "".
Proof. destruct s; [auto | discriminate]. Qed.

(** What one node adds to the name, and the level after it. *)
Definition name_piece (escape : bool) (level : N) (it : Substream)
  : string * N :=
  name_step escape ("", level) it.

Lemma name_step_piece (escape : bool) (stream_name : string) (level : N)
    (it : Substream) :
  name_step escape (stream_name, level) it
  = (stream_name +:+ fst (name_piece escape level it),
     snd (name_piece escape level it)).
Proof.
  unfold name_piece, name_step.
  destruct (substream_type it); simpl; now rewrite ?append_empty_r.
Qed.

Lemma name_walk_base (escape : bool) (range : SubstreamPath) :
  forall (stream_name : string) (level : N),
    fst (fold_left (name_step escape) range (stream_name, level))
    = stream_name
      +:+ fst (fold_left (name_step escape) range ("", level)).
Proof.
  induction range as [|it range IH]; intros stream_name level.
  - simpl. now rewrite append_empty_r.
  - cbn [fold_left]. rewrite (name_step_piece escape stream_name).
    rewrite (name_step_piece escape "").
    rewrite IH. rewrite (IH ("" +:+ _)). simpl. now rewrite append_assoc.
Qed.

(** X1: the name of a stream is the base name followed by a suffix that
    the path alone decides: the file name of a stream is the escaped column
    name (the escaped table name for the single sizes stream of a nested
    column) followed by the name the path gives to the empty base. *)
Theorem stream_name_is_base_and_suffix (name_in_storage stream_name : string)
    (path : SubstreamPath) (escape : bool) :
  getNameForSubstreamPath stream_name path escape
  = stream_name +:+ getNameForSubstreamPath "" path escape
  /\ exists base,
      getFileNameForStream name_in_storage path
      = base +:+ getNameForSubstreamPath "" path true
      /\ (base = escapeForFileName name_in_storage
          \/ base = escapeForFileName (extractTableName name_in_storage)
             /\ is_single_array_sizes path = true).
Proof.
  split.
  - unfold getNameForSubstreamPath, name_walk. apply name_walk_base.
  - unfold getFileNameForStream, getNameForSubstreamPath, name_walk.
    destruct (negb _ && is_single_array_sizes path) eqn:Hcase;
      eexists; (split; [apply name_walk_base|]).
    + right. apply andb_true_iff in Hcase. now destruct Hcase.
    + now left.
Qed.

(** With the escaping of the delimiter off, whatever a node adds starts with
    a dot. *)
Lemma name_piece_dot (level : N) (it : Substream) :
  fst (name_piece false level it) = ""
  \/ exists rest, fst (name_piece false level it) = String "."%char rest.
Proof.
  unfold name_piece, name_step.
  destruct (substream_type it); simpl; eauto.
Qed.

Lemma name_walk_dot (range : SubstreamPath) :
  forall level : N,
    fst (fold_left (name_step false) range ("", level)) = ""
    \/ exists rest,
        fst (fold_left (name_step false) range ("", level))
        = String "."%char rest.
Proof.
  induction range as [|it range IH]; intros level.
  - now left.
  - cbn [fold_left]. rewrite (name_step_piece false "").
    rewrite name_walk_base. simpl.
    destruct (name_piece_dot level it) as [-> | [rest ->]].
    + simpl. apply IH.
    + right. simpl. eauto.
Qed.

(** X2: what [getSubcolumnNameForStream] cuts with [substr(1)] is a dot: the
    name built for a prefix with the escaping off is empty, and so is the
    subcolumn name, or it is a dot followed by the subcolumn name. *)
Theorem subcolumn_name_cuts_a_dot (path : SubstreamPath) (prefix_len : nat) :
  let raw := getNameForSubstreamPath "" (take prefix_len path) false in
  let subcolumn_name := getSubcolumnNameForStream_prefix path prefix_len in
  (raw = "" /\ subcolumn_name = "")
  \/ raw = String "."%char subcolumn_name.
Proof.
  intros raw subcolumn_name. unfold subcolumn_name, raw.
  unfold getSubcolumnNameForStream_prefix, getNameForSubstreamPath, name_walk.
  destruct (name_walk_dot (take prefix_len path) 0%N) as [-> | [rest ->]].
  - now left.
  - now right.
Qed.

Lemma name_step_same_kind (escape : bool) (st : string * N) (a b : Substream) :
  same_kind_and_name a b ->
  (escape = false \/ escape_tuple_delimiter a = escape_tuple_delimiter b) ->
  name_step escape st a = name_step escape st b.
Proof.
  intros [Htype Hname] Hflag. unfold name_step. destruct st as [name level].
  rewrite <- Htype, <- Hname.
  destruct (substream_type a); try reflexivity.
  destruct Hflag as [-> | <-]; reflexivity.
Qed.

Lemma name_walk_same_kind (escape : bool) (p q : SubstreamPath) :
  Forall2 same_kind_and_name p q ->
  (escape = false
   \/ Forall2 (fun a b => escape_tuple_delimiter a = escape_tuple_delimiter b)
        p q) ->
  forall st, fold_left (name_step escape) p st
             = fold_left (name_step escape) q st.
Proof.
  induction 1 as [|a b p q Hab Hpq IH]; intros Hflag st; [reflexivity|].
  cbn [fold_left]. rewrite (name_step_same_kind escape st a b Hab).
  - apply IH. destruct Hflag as [-> | Hflags]; [now left|].
    right. now inversion Hflags.
  - destruct Hflag as [-> | Hflags]; [now left|].
    right. now inversion Hflags.
Qed.

(** X3: the names do not read the data attached to the nodes, and the
    subcolumn name does not read their escape flags: two paths with the same
    kinds and element names have the same subcolumn name, and the same file
    name when their escape flags agree too. *)
Theorem names_of_paths_of_same_kind (name_in_storage : string)
    (p q : SubstreamPath) :
  Forall2 same_kind_and_name p q ->
  getSubcolumnNameForStream p = getSubcolumnNameForStream q
  /\ (Forall2 (fun a b => escape_tuple_delimiter a = escape_tuple_delimiter b)
        p q ->
      getFileNameForStream name_in_storage p
      = getFileNameForStream name_in_storage q).
Proof.
  intros Hkind. split.
  - unfold getSubcolumnNameForStream, getSubcolumnNameForStream_prefix,
      getNameForSubstreamPath, name_walk.
    rewrite !firstn_all.
    now rewrite (name_walk_same_kind false p q Hkind (or_introl eq_refl)).
  - intros Hflags.
    unfold getFileNameForStream, getNameForSubstreamPath, name_walk.
    rewrite (name_walk_same_kind true p q Hkind (or_intror Hflags)).
    replace (is_single_array_sizes q) with (is_single_array_sizes p);
      [reflexivity|].
    destruct Hkind as [|a b p q [Htype _] Hrest]; [reflexivity|].
    destruct Hrest; simpl; [now rewrite Htype | reflexivity].
Qed.

Lemma name_step_silent (escape : bool) (st : string * N) (it : Substream) :
  is_silent it -> name_step escape st it = st.
Proof.
  intros [H | H]; unfold name_step; destruct st; now rewrite H.
Qed.

(** X4: Regular and DictionaryIndexes nodes take no part in the names: the
    name of a path is the name of the path without them. *)
Theorem silent_nodes_leave_names (stream_name : string) (path : SubstreamPath)
    (escape : bool) :
  let audible := filter (fun it => ~ is_silent it) path in
  getNameForSubstreamPath stream_name audible escape
  = getNameForSubstreamPath stream_name path escape
  /\ getSubcolumnNameForStream audible = getSubcolumnNameForStream path.
Proof.
  assert (Hwalk : forall e st,
             fold_left (name_step e) (filter (fun it => ~ is_silent it) path) st
             = fold_left (name_step e) path st).
  { intros e. induction path as [|it path IH]; intros st; [reflexivity|].
    rewrite filter_cons. destruct (decide (~ is_silent it)) as [Hloud|Hsilent].
    - cbn [fold_left]. apply IH.
    - cbn [fold_left]. rewrite (name_step_silent e st it); [apply IH|].
      destruct (decide (is_silent it)); [assumption | contradiction]. }
  intros audible. split.
  - unfold getNameForSubstreamPath, name_walk, audible. now rewrite Hwalk.
  - unfold getSubcolumnNameForStream, getSubcolumnNameForStream_prefix,
      getNameForSubstreamPath, name_walk.
    rewrite !firstn_all. unfold audible. now rewrite Hwalk.
Qed.

(** X5: the sizes stream of a nested column is named after the table: for
    the path of one ArraySizes node, the file name of a column whose table
    name differs from its name is the escaped table name followed by .size0,
    so that the columns of one nested table share it; the file name of any
    other column is its own escaped name followed by .size0. *)
Theorem nested_sizes_stream_is_shared (name1 name2 : string) (it : Substream) :
  substream_type it = ArraySizes ->
  (extractTableName name1 <> name1 ->
   getFileNameForStream name1 [it]
   = escapeForFileName (extractTableName name1) +:+ ".size0")
  /\ (extractTableName name1 <> name1 ->
      extractTableName name2 <> name2 ->
      extractTableName name1 = extractTableName name2 ->
      getFileNameForStream name1 [it] = getFileNameForStream name2 [it])
  /\ (extractTableName name1 = name1 ->
      getFileNameForStream name1 [it] = escapeForFileName name1 +:+ ".size0").
Proof.
  intros Hsizes.
  assert (Hnested : forall n, extractTableName n <> n ->
            getFileNameForStream n [it]
            = escapeForFileName (extractTableName n) +:+ ".size0").
  { intros n Hn.
    unfold getFileNameForStream, getNameForSubstreamPath, name_walk,
      is_single_array_sizes.
    destruct (String.eqb_spec n (extractTableName n)) as [Heq|_];
      [now rewrite <- Heq in Hn|].
    cbn [fold_left]. unfold name_step. now rewrite Hsizes. }
  split; [apply Hnested|]. split.
  - intros H1 H2 Htable. rewrite !Hnested by assumption. now rewrite Htable.
  - intros Hplain.
    unfold getFileNameForStream, getNameForSubstreamPath, name_walk.
    rewrite Hplain, String.eqb_refl.
    cbn [fold_left negb andb]. unfold name_step. now rewrite Hsizes.
Qed.

Lemma count_array_elements_app (p q : SubstreamPath) :
  count_array_elements (p ++ q)
  = (count_array_elements p + count_array_elements q)%N.
Proof.
  unfold count_array_elements. rewrite filter_app, length_app. lia.
Qed.

(** X6: the array level of a path shorter than 2^64 adds up over its parts,
    so that it never decreases on the way down; it grows by one with an
    ArrayElements node and with no other node, and it is at most the length
    of the path. *)
Theorem array_level_adds_up (p q : SubstreamPath) (it : Substream) :
  (N.of_nat (length (p ++ it :: q)) < size_t_range)%N ->
  getArrayLevel (p ++ it :: q)
  = (getArrayLevel p + getArrayLevel [it] + getArrayLevel q)%N
  /\ getArrayLevel [it]
     = (if bool_decide (substream_type it = ArrayElements) then 1 else 0)%N
  /\ (getArrayLevel p <= getArrayLevel (p ++ it :: q))%N
  /\ (getArrayLevel (p ++ it :: q) <= N.of_nat (length (p ++ it :: q)))%N.
Proof.
  intros Hlen. rewrite length_app in Hlen. simpl in Hlen.
  pose proof (count_array_elements_le (p ++ it :: q)) as Hle.
  rewrite (getArrayLevel_count (p ++ it :: q))
    by (rewrite length_app; simpl; lia).
  rewrite (getArrayLevel_count p) by lia.
  rewrite (getArrayLevel_count q) by lia.
  rewrite (getArrayLevel_count [it]) by (simpl; unfold size_t_range; lia).
  rewrite count_array_elements_app.
  rewrite (count_array_elements_cons it q).
  rewrite (count_array_elements_cons it []).
  rewrite count_array_elements_app, count_array_elements_cons in Hle.
  change (count_array_elements []) with 0%N.
  repeat split; lia.
Qed.

(** *** Properties of the path predicates *)

Definition is_structural (it : Substream) : Prop :=
  substream_type it = NullMap \/ substream_type it = ArraySizes
  \/ substream_type it = DictionaryIndexes
  \/ substream_type it = SparseOffsets.

(** X7: special compression is refused exactly for the paths with a NullMap,
    ArraySizes, DictionaryIndexes or SparseOffsets node, so that it is
    allowed for a path of two parts exactly when it is for both. *)
Theorem special_compression_allowed (p q : SubstreamPath) :
  (isSpecialCompressionAllowed p = false <-> Exists is_structural p)
  /\ isSpecialCompressionAllowed (p ++ q)
     = isSpecialCompressionAllowed p && isSpecialCompressionAllowed q.
Proof.
  split.
  - induction p as [|it p IH]; simpl.
    + split; [discriminate | intros H; inversion H].
    + rewrite Exists_cons. unfold is_structural at 1.
      repeat case_bool_decide; simpl; tauto.
  - induction p as [|it p IH]; simpl; [reflexivity|].
    now destruct (_ || _).
Qed.

(** X8: a prefix has a subcolumn only if it is not empty and lies within the
    path; whether it has one is read off its last node alone; and the name
    built for such a prefix is not empty. *)
Theorem hasSubcolumnForPath_prefix (path : SubstreamPath) (prefix_len : nat) :
  hasSubcolumnForPath path prefix_len = true ->
  0 < prefix_len <= length path
  /\ hasSubcolumnForPath (take prefix_len path) prefix_len = true
  /\ getNameForSubstreamPath "" (take prefix_len path) false <> "".
Proof.
  unfold hasSubcolumnForPath.
  destruct (Nat.eqb_spec prefix_len 0) as [|Hpos]; [discriminate|].
  destruct (Nat.ltb_spec (length path) prefix_len) as [|Hle]; [discriminate|].
  simpl. destruct prefix_len as [|n]; [contradiction|].
  replace (S n - 1) with n by lia.
  destruct (path !! n) as [e|] eqn:He; [|discriminate].
  intros Hkind. split; [lia|]. split.
  - rewrite length_take. replace (S n `min` length path) with (S n) by lia.
    rewrite Nat.ltb_irrefl. simpl.
    rewrite lookup_take_lt by lia. now rewrite He.
  - rewrite (take_S_r _ _ _ He).
    unfold getNameForSubstreamPath. rewrite name_walk_snoc.
    destruct (name_walk false "" (take n path)) as [name level].
    rewrite name_step_piece. simpl. intros Hempty.
    apply append_eq_empty in Hempty. revert Hempty.
    unfold name_piece, name_step.
    destruct (substream_type e); simpl in *; discriminate.
Qed.

(** *** Further properties of the cache *)

(** X9: a store never changes what a fetch has found: a column fetched
    under a path before a store, under any path and of any value, is
    fetched under it after the store. *)
Theorem store_keeps_fetched_columns (cache : option SubstreamsCache)
    (path path2 : SubstreamPath) (value : ColumnPtr) (c : IColumn Field) :
  getFromSubstreamsCache cache path2 = Some c ->
  getFromSubstreamsCache (addToSubstreamsCache cache path value) path2
  = Some c.
Proof.
  destruct cache as [m|]; [|discriminate].
  destruct path2 as [|e2 path2]; [discriminate|].
  destruct path as [|e path]; [auto|].
  unfold addToSubstreamsCache, getFromSubstreamsCache, emplace.
  destruct (m !! getSubcolumnNameForStream (e2 :: path2)) as [found|] eqn:H2;
    [|discriminate].
  intros ->.
  destruct (m !! getSubcolumnNameForStream (e :: path)) as [old|] eqn:H1.
  - now rewrite H2.
  - rewrite lookup_insert_ne by congruence. now rewrite H2.
Qed.

(** X10: the first store under a name wins: a second store under a path of
    the same subcolumn name, of whatever value, leaves the cache as the
    first one left it. *)
Theorem second_store_changes_nothing (cache : option SubstreamsCache)
    (path path2 : SubstreamPath) (value value2 : ColumnPtr) :
  path <> [] ->
  getSubcolumnNameForStream path2 = getSubcolumnNameForStream path ->
  addToSubstreamsCache (addToSubstreamsCache cache path value) path2 value2
  = addToSubstreamsCache cache path value.
Proof.
  intros Hpath Hname. destruct cache as [m|]; [|reflexivity].
  destruct path as [|e path]; [contradiction|].
  destruct path2 as [|e2 path2]; [reflexivity|].
  unfold addToSubstreamsCache, emplace. rewrite Hname.
  destruct (m !! getSubcolumnNameForStream (e :: path)) as [old|] eqn:H1.
  - now rewrite H1.
  - now rewrite lookup_insert_eq.
Qed.

(** *** The entry points with multiple streams *)

Section MultipleStreams.
Context {WriteBuffer ReadBuffer double : Type}.

(** [serializeBinaryBulk] and [deserializeBinaryBulk] are virtual: the
    functions below call the ones of the serialization at hand. *)
Variable serializeBinaryBulk_of :
  IColumn Field -> WriteBuffer -> N -> N -> outcome unit * WriteBuffer.
Variable deserializeBinaryBulk_of :
  IColumn Field -> ReadBuffer -> N -> double ->
  outcome unit * IColumn Field * ReadBuffer.

(** [serializeBinaryBulkWithMultipleStreams]; [getter] and [path] are the
    fields of [settings] it reads. The result carries the stream the getter
    gave, after the call. *)
Definition serializeBinaryBulkWithMultipleStreams (column_ : IColumn Field)
    (offset limit : N) (getter : SubstreamPath -> option WriteBuffer)
    (path : SubstreamPath) : outcome unit * option WriteBuffer :=
  match getter path with
  | Some stream =>
      let '(result, stream) :=
        serializeBinaryBulk_of column_ stream offset limit in
      (result, Some stream)
  | None => (Returned tt, None)
  end.

(** [deserializeBinaryBulkWithMultipleStreams]. The result carries the
    column pointer, the stream the getter gave, if it was asked and gave
    one, and the cache, all after the call; [None] is [assumeMutable] on a
    null column. An exception of [deserializeBinaryBulk] leaves the column
    as the callee left it and the cache as it was. *)
Definition deserializeBinaryBulkWithMultipleStreams (column_ : ColumnPtr)
    (limit : N) (getter : SubstreamPath -> option ReadBuffer)
    (path : SubstreamPath) (avg_value_size_hint : double)
    (cache : option SubstreamsCache)
  : option (outcome unit * ColumnPtr * option ReadBuffer
            * option SubstreamsCache) :=
  match getFromSubstreamsCache cache path with
  | Some cached_column =>
      Some (Returned tt, Some cached_column, None, cache)
  | None =>
      match getter path with
      | Some stream =>
          match column_ with
          | Some mutable_column =>
              match deserializeBinaryBulk_of mutable_column stream limit
                      avg_value_size_hint with
              | (Returned _, mutable_column, stream) =>
                  Some (Returned tt, Some mutable_column, Some stream,
                        addToSubstreamsCache cache path (Some mutable_column))
              | (Thrown e, mutable_column, stream) =>
                  Some (Thrown e, Some mutable_column, Some stream, cache)
              end
          | None => None
          end
      | None => Some (Returned tt, column_, None, cache)
      end
  end.

(** X11: the multi-stream deserialization reads no stream on a hit of the
    cache, where it hands out the cached column without asking the getter,
    nor when the getter gives no stream, where column and cache stay as they
    are and nothing is thrown; and whenever it changes the cache, it has
    returned after reading a stream and has stored the column it read. *)
Theorem deserialize_reads_on_miss_only (column_ : ColumnPtr) (limit : N)
    (getter : SubstreamPath -> option ReadBuffer) (path : SubstreamPath)
    (avg_value_size_hint : double) (cache : option SubstreamsCache) :
  let run :=
    deserializeBinaryBulkWithMultipleStreams column_ limit getter path
      avg_value_size_hint cache in
  (forall c,
      getFromSubstreamsCache cache path = Some c ->
      run = Some (Returned tt, Some c, None, cache))
  /\ (getFromSubstreamsCache cache path = None -> getter path = None ->
      run = Some (Returned tt, column_, None, cache))
  /\ (forall result column' stream' cache',
         run = Some (result, column', stream', cache') ->
         (is_Some stream' ->
          getFromSubstreamsCache cache path = None /\ is_Some (getter path))
         /\ (cache' <> cache ->
             result = Returned tt /\ is_Some stream'
             /\ cache' = addToSubstreamsCache cache path column')).
Proof.
  intros run. unfold run, deserializeBinaryBulkWithMultipleStreams.
  split; [now intros c ->|]. split; [now intros -> ->|].
  intros result column' stream' cache'.
  destruct (getFromSubstreamsCache cache path) as [c|].
  - intros [= <- <- <- <-]. split; [intros [? [=]] | congruence].
  - destruct (getter path) as [stream|].
    + destruct column_ as [mutable_column|]; [|discriminate].
      destruct (deserializeBinaryBulk_of _ _ _ _) as [[[[]|e] col] st];
        intros [= <- <- <- <-]; (split; [eauto|]); [eauto | congruence].
    + intros [= <- <- <- <-]. split; [intros [? [=]] | congruence].
Qed.

(** X12: what was read once is not read again: after a call that missed
    the cache, read a stream and returned, the cache having no entry under
    the subcolumn name of the path, a call under any path of that subcolumn
    name hands out the column read, whatever column and getter it is given,
    and reads no stream. *)
Theorem deserialize_memoizes (m : SubstreamsCache) (column_ column2 : ColumnPtr)
    (mutable_column read : IColumn Field) (stream stream' : ReadBuffer)
    (limit limit2 : N) (getter getter2 : SubstreamPath -> option ReadBuffer)
    (path path2 : SubstreamPath) (hint hint2 : double) :
  path <> [] -> path2 <> [] ->
  getSubcolumnNameForStream path2 = getSubcolumnNameForStream path ->
  m !! getSubcolumnNameForStream path = None ->
  getter path = Some stream ->
  column_ = Some mutable_column ->
  deserializeBinaryBulk_of mutable_column stream limit hint
  = (Returned tt, read, stream') ->
  exists cache',
    deserializeBinaryBulkWithMultipleStreams column_ limit getter path hint
      (Some m)
    = Some (Returned tt, Some read, Some stream', cache')
    /\ deserializeBinaryBulkWithMultipleStreams column2 limit2 getter2 path2
         hint2 cache'
       = Some (Returned tt, Some read, None, cache').
Proof.
  intros Hpath Hpath2 Hname Hfree Hgetter -> Hread.
  destruct path as [|e path]; [contradiction|].
  destruct path2 as [|e2 path2]; [contradiction|].
  eexists. unfold deserializeBinaryBulkWithMultipleStreams.
  unfold getFromSubstreamsCache at 1. rewrite Hfree, Hgetter, Hread.
  split; [reflexivity|].
  unfold addToSubstreamsCache, emplace, getFromSubstreamsCache.
  rewrite Hfree, Hname. now rewrite lookup_insert_eq.
Qed.

End MultipleStreams.

(** X13: a serialization that overrides neither entry point cannot write or
    read a stream: with the single-stream entry points of ISerialization,
    the multi-stream serialization throws MULTIPLE_STREAMS_REQUIRED exactly
    when the getter gives a stream, which it leaves as it was, and returns
    otherwise; the multi-stream deserialization that misses the cache and is
    given a stream throws the same and leaves column, stream and cache as
    they were. *)
Theorem default_entry_points_need_override
    {WriteBuffer ReadBuffer double : Type} (column_ : IColumn Field)
    (offset limit : N) (put : SubstreamPath -> option WriteBuffer)
    (get : SubstreamPath -> option ReadBuffer) (path : SubstreamPath)
    (avg_value_size_hint : double) (cache : option SubstreamsCache) :
  let written :=
    serializeBinaryBulkWithMultipleStreams serializeBinaryBulk column_
      offset limit put path in
  ((exists e, fst written = Thrown e /\ code e = MULTIPLE_STREAMS_REQUIRED)
   <-> is_Some (put path))
  /\ (put path = None -> fst written = Returned tt)
  /\ snd written = put path
  /\ (forall stream,
         getFromSubstreamsCache cache path = None ->
         get path = Some stream ->
         exists e,
           deserializeBinaryBulkWithMultipleStreams deserializeBinaryBulk
             (Some column_) limit get path avg_value_size_hint cache
           = Some (Thrown e, Some column_, Some stream, cache)
           /\ code e = MULTIPLE_STREAMS_REQUIRED).
Proof.
  intros written. unfold written, serializeBinaryBulkWithMultipleStreams.
  split; [|split; [|split]].
  - destruct (put path) as [stream|]; simpl.
    + split; [eauto|]. intros _. eexists. split; reflexivity.
    + split; [intros (e & [=] & _) | intros [? [=]]].
  - now intros ->.
  - now destruct (put path).
  - intros stream Hmiss Hget.
    unfold deserializeBinaryBulkWithMultipleStreams.
    rewrite Hmiss, Hget. simpl. eexists. split; reflexivity.
Qed.

(** *** Further properties of the composition *)

Lemma apply_creator_keeps (c : ISubcolumnCreator) (res : SubstreamData) :
  creator (apply_creator c res) = creator res
  /\ (is_Some (type (apply_creator c res)) <-> is_Some (type res))
  /\ (is_Some (column (apply_creator c res)) <-> is_Some (column res))
  /\ (is_Some (serialization (apply_creator c res))
      <-> is_Some (serialization res)).
Proof.
  unfold apply_creator. simpl. rewrite !fmap_is_Some. tauto.
Qed.

Lemma createFromPath_loop_keeps (path : SubstreamPath) (n : nat) :
  forall res : SubstreamData,
    let res' := createFromPath_loop path n res in
    creator res' = creator res
    /\ (is_Some (type res') <-> is_Some (type res))
    /\ (is_Some (column res') <-> is_Some (column res))
    /\ (is_Some (serialization res') <-> is_Some (serialization res)).
Proof.
  induction n as [|i IH]; intros res; [simpl; tauto|].
  cbn [createFromPath_loop].
  destruct (path !! i) as [node|]; [|apply IH].
  destruct (creator (data node)) as [c|]; [|apply IH].
  specialize (IH (apply_creator c res)). cbv zeta in IH.
  destruct (apply_creator_keeps c res) as (Hc & Ht & Hcol & Hs).
  cbv zeta. rewrite <- Hc, <- Ht, <- Hcol, <- Hs. exact IH.
Qed.

(** X14: the data [createFromPath] returns carries no creator, and each of
    its type, column and serialization is null exactly when that of the
    node at [prefix_len] is: the creators rewrap what is there and make up
    nothing. *)
Theorem createFromPath_keeps_nulls (path : SubstreamPath) (prefix_len : nat)
    (node : Substream) (res : SubstreamData) :
  path !! prefix_len = Some node ->
  createFromPath path prefix_len = Some res ->
  creator res = None
  /\ (is_Some (type res) <-> is_Some (type (data node)))
  /\ (is_Some (column res) <-> is_Some (column (data node)))
  /\ (is_Some (serialization res) <-> is_Some (serialization (data node))).
Proof.
  intros Hnode. unfold createFromPath. rewrite Hnode. intros [= <-].
  exact (createFromPath_loop_keeps path prefix_len (reset_creator (data node))).
Qed.

Lemma createFromPath_loop_app (path extra : SubstreamPath) (n : nat) :
  n <= length path ->
  forall res, createFromPath_loop (path ++ extra) n res
              = createFromPath_loop path n res.
Proof.
  induction n as [|i IH]; intros Hn res; [reflexivity|].
  cbn [createFromPath_loop]. rewrite lookup_app_l by lia. apply IH. lia.
Qed.

(** X15: [createFromPath] reads the nodes up to [prefix_len] only: nodes
    pushed after them do not change its result. *)
Theorem createFromPath_reads_prefix (path extra : SubstreamPath)
    (prefix_len : nat) :
  prefix_len < length path ->
  createFromPath (path ++ extra) prefix_len = createFromPath path prefix_len.
Proof.
  intros Hlt. unfold createFromPath. rewrite lookup_app_l by lia.
  destruct (path !! prefix_len); [|reflexivity].
  rewrite createFromPath_loop_app by lia. reflexivity.
Qed.

End Protocol.

(** *** Concrete instances *)

(** A sample of the escaping for the evaluations below: letters, digits and
    the underscore are kept, any other byte becomes a percent sign and two
    uppercase hexadecimal digits, so that the dot becomes the %2E of the
    comment in [getNameForSubstreamPath]. *)
Definition isWordCharASCII (c : ascii) : bool :=
  let n := Ascii.N_of_ascii c in
  ((48 <=? n) && (n <=? 57) || (65 <=? n) && (n <=? 90)
   || (97 <=? n) && (n <=? 122) || (n =? 95))%N.

Definition hexDigitUppercase (n : N) : ascii :=
  Ascii.ascii_of_N (if (n <? 10)%N then 48 + n else 55 + n)%N.

Fixpoint sample_escape (s : string) : string :=
  match s with
  | EmptyString => EmptyString
  | String c rest =>
      if isWordCharASCII c then String c (sample_escape rest)
      else
        let n := Ascii.N_of_ascii c in
        String "%"%char (String (hexDigitUppercase (n / 16))
                      (String (hexDigitUppercase (n mod 16))
                         (sample_escape rest)))
  end.

(** A sample of the table name of a nested name: what stands before the
    first dot. *)
Fixpoint sample_table_name (s : string) : string :=
  match s with
  | EmptyString => EmptyString
  | String c rest =>
      if Ascii.eqb c "."%char then EmptyString else String c (sample_table_name rest)
  end.

(** Sample transforms; the values are not materialized in the examples. *)
Definition wrap_nullable : @ISubcolumnCreator N :=
  mkCreator DataTypeNullable
    (fun s => SerializationComposite "Nullable" [(mkRole NullMap "" true, s)])
    (fun c => c).

Definition wrap_array : @ISubcolumnCreator N :=
  mkCreator DataTypeArray
    (fun s =>
       SerializationComposite "Array" [(mkRole ArrayElements "" true, s)])
    (fun c => c).

(** A sample of what the composite types attach to the nodes they push: the
    type of the child and the transform back. *)
Definition sample_wrapper_data (ser : Serialization) (role : StructuralRole)
    (type_ : option DataType) (column_ : option (IColumn N))
  : @SubstreamData N :=
  match role_type role, type_ with
  | NullMap, Some (DataTypeNullable t) =>
      mkData (Some t) None None (Some wrap_nullable)
  | ArrayElements, Some (DataTypeArray t) =>
      mkData (Some t) None None (Some wrap_array)
  | _, _ => mkData type_ None None None
  end.

Definition serialization_Int32 : Serialization := SerializationPlain "Int32".

Definition serialization_Nullable_Array_Int32 : Serialization :=
  SerializationComposite "Nullable(Array(Int32))"
    [(mkRole NullMap "" true,
      SerializationComposite "Array(Int32)"
        [(mkRole ArrayElements "" true, serialization_Int32)])].

(** The path the visitor sees on the walk of Nullable(Array(Int32)). *)
Definition path_Nullable_Array_Int32 : list (@Substream N) :=
  [mkSubstream NullMap "" true
     (mkData (Some (DataTypeArray DataTypeInt32)) None None
        (Some wrap_nullable));
   mkSubstream ArrayElements "" true
     (mkData (Some DataTypeInt32) None None (Some wrap_array));
   mkSubstream Regular "" true
     (mkData (Some DataTypeInt32) None (Some serialization_Int32) None)].

(** The path of the claim on the composition: the two wrapper nodes, the
    ArrayElements node with the data of its depth, the array of Int32. *)
Definition path_NullMap_ArrayElements : list (@Substream N) :=
  [mkSubstream NullMap "" true
     (mkData (Some (DataTypeNullable (DataTypeArray DataTypeInt32))) None None
        (Some wrap_nullable));
   mkSubstream ArrayElements "" true
     (mkData (Some (DataTypeArray DataTypeInt32)) None
        (Some (create_serialization wrap_array serialization_Int32))
        (Some wrap_array))].

(** Its leaf. *)
Definition leaf_Int32 : @Substream N :=
  mkSubstream Regular "" true
    (mkData (Some DataTypeInt32) None (Some serialization_Int32) None).

(** A visitor that fails. *)
Definition throwing_callback : @StreamCallback N unit :=
  fun _ s => (Thrown (mkException (OTHER_ERROR 0) "visitor failed"), s).

Example enumerate_Nullable_Array_Int32 :
  enumerate sample_wrapper_data serialization_Nullable_Array_Int32 []
    record_path (Some (DataTypeNullable (DataTypeArray DataTypeInt32))) None []
  = (Returned tt, [], [path_Nullable_Array_Int32]).
Proof. reflexivity. Qed.

Example sample_escape_dot : sample_escape "." = "%2E".
Proof. reflexivity. Qed.

Lemma tuple_element_stream_and_subcolumn_name_witness :
  let path := [mkSubstream TupleElement "b" true (@no_data N)] in
  getFileNameForStream sample_escape sample_table_name "a" path = "a%2Eb"
  /\ getSubcolumnNameForStream sample_escape path = "b".
Proof.
  destruct (tuple_element_stream_and_subcolumn_name
              sample_escape sample_table_name (@no_data N)
              eq_refl eq_refl) as (Hfile & Hsub & _).
  split; [exact Hfile | exact Hsub].
Defined.

Lemma array_sizes_suffix_witness :
  let before := [@Substream_of N ArrayElements; Substream_of NullMap;
                 Substream_of ArrayElements; Substream_of ArrayElements] in
  (N.of_nat (length before) < size_t_range)%N
  /\ getNameForSubstreamPath sample_escape "a"
       (before ++ [Substream_of ArraySizes]) true
     = "a.null.size3".
Proof.
  intros before.
  assert (Hlen : (N.of_nat (length before) < size_t_range)%N) by reflexivity.
  split; [exact Hlen|].
  destruct (array_sizes_suffix (Field := N) sample_escape sample_table_name)
    as [_ Hgeneral].
  destruct (Hgeneral before (Substream_of ArraySizes) "a" true Hlen)
    as [Hsizes _].
  destruct (Hsizes eq_refl) as [_ Hname]. exact Hname.
Defined.

(** C3 does not hold for a call that fails: when the visitor throws, the
    Regular node is still on the path. *)
Lemma enumerateStreams_throw_keeps_node :
  enumerateStreams serialization_Int32 [] throwing_callback
    (Some DataTypeInt32) None tt
  = (Thrown (mkException (OTHER_ERROR 0) "visitor failed"),
     [mkSubstream Regular "" true
        (mkData (Some DataTypeInt32) None (Some serialization_Int32) None)],
     tt)
  /\ snd (fst (enumerateStreams serialization_Int32 [] throwing_callback
                 (Some DataTypeInt32) None tt)) <> [].
Proof. split; [reflexivity | discriminate]. Qed.

Lemma enumerate_restores_path_on_return_witness :
  let path := [@Substream_of N TupleElement] in
  let type_ := Some (DataTypeNullable (DataTypeArray DataTypeInt32)) in
  enumerate sample_wrapper_data serialization_Nullable_Array_Int32 path
    record_path type_ None []
  = (Returned tt, path, [path ++ path_Nullable_Array_Int32])
  /\ path = path.
Proof.
  intros path type_.
  assert (Hrun : enumerate sample_wrapper_data
                   serialization_Nullable_Array_Int32 path record_path
                   type_ None []
                 = (Returned tt, path, [path ++ path_Nullable_Array_Int32]))
    by reflexivity.
  split; [exact Hrun|].
  destruct (enumerate_restores_path_on_return sample_wrapper_data record_path
              serialization_Nullable_Array_Int32 path type_ None []
              path [path ++ path_Nullable_Array_Int32]) as [Hreturn _].
  exact (Hreturn Hrun).
Defined.

(** C5 does not hold for a cache that holds an entry under the name already:
    [emplace] keeps the first value, and a fetch returns it. *)
Lemma store_keeps_earlier_entry :
  let path := [mkSubstream TupleElement "b" true (@no_data N)] in
  let first := Some (ColumnVector [1%N]) in
  let second := Some (ColumnVector [2%N]) in
  getSubcolumnNameForStream sample_escape path = "b"
  /\ getFromSubstreamsCache sample_escape
       (addToSubstreamsCache sample_escape (Some {["b" := first]}) path second)
       path
     = first
  /\ first <> second.
Proof.
  intros path first second. split; [reflexivity|]. split; [|discriminate].
  unfold addToSubstreamsCache, getFromSubstreamsCache, emplace.
  change (getSubcolumnNameForStream sample_escape path) with "b".
  rewrite lookup_singleton_eq. simpl. now rewrite lookup_singleton_eq.
Qed.

Lemma substreams_cache_store_fetch_witness :
  let path := [mkSubstream TupleElement "b" true (@no_data N)] in
  let path2 := [mkSubstream TupleElement "b" false (@no_data N)] in
  let value := Some (ColumnVector [7%N]) in
  path <> [] /\ path2 <> []
  /\ (∅ : gmap string (option (IColumn N)))
       !! getSubcolumnNameForStream sample_escape path = None
  /\ getSubcolumnNameForStream sample_escape path2
     = getSubcolumnNameForStream sample_escape path
  /\ getFromSubstreamsCache sample_escape
       (addToSubstreamsCache sample_escape (Some ∅) path value) path2
     = value.
Proof.
  intros path path2 value.
  assert (H1 : path <> []) by discriminate.
  assert (H2 : path2 <> []) by discriminate.
  assert (H3 : (∅ : gmap string (option (IColumn N)))
                 !! getSubcolumnNameForStream sample_escape path = None)
    by apply lookup_empty.
  assert (H4 : getSubcolumnNameForStream sample_escape path2
               = getSubcolumnNameForStream sample_escape path)
    by reflexivity.
  repeat (split; [assumption|]).
  destruct (substreams_cache_store_fetch sample_escape None ∅ path path2 value)
    as (_ & _ & _ & _ & _ & Hfetch & _).
  exact (Hfetch H1 H2 H3 H4).
Defined.

Lemma createFromPath_composes_witness :
  createFromPath path_NullMap_ArrayElements 1
  = Some (mkData (Some (DataTypeNullable (DataTypeArray DataTypeInt32))) None
            (Some (create_serialization wrap_nullable
                     (create_serialization wrap_array serialization_Int32)))
            None)
  /\ createFromPath (path_NullMap_ArrayElements ++ [leaf_Int32]) 2
     = createFromPath path_NullMap_ArrayElements 1
  /\ 1 < length path_NullMap_ArrayElements
  /\ is_Some (createFromPath path_NullMap_ArrayElements 1).
Proof.
  destruct (@createFromPath_composes N) as [Hgeneral Hexample].
  destruct (Hexample wrap_nullable wrap_array
              (mkData (Some (DataTypeNullable (DataTypeArray DataTypeInt32)))
                 None None (Some wrap_nullable))
              (mkData (Some (DataTypeArray DataTypeInt32)) None
                 (Some (create_serialization wrap_array serialization_Int32))
                 (Some wrap_array))
              (mkData (Some DataTypeInt32) None (Some serialization_Int32)
                 None)
              eq_refl eq_refl eq_refl eq_refl eq_refl eq_refl)
    as (Hone & _ & _ & Htwo).
  split; [exact Hone|]. split.
  - exact (eq_trans Htwo (eq_sym Hone)).
  - assert (Hlt : 1 < length path_NullMap_ArrayElements) by (simpl; lia).
    split; [exact Hlt|].
    exact (proj2 (Hgeneral path_NullMap_ArrayElements 1) Hlt).
Defined.

(** *** Concrete instances of the further properties *)

(** A sample of a single-stream deserialization: [limit] values are moved
    from the buffer to the end of a column of values. *)
Definition sample_read (column_ : IColumn N) (istr : list N) (limit : N)
    (avg_value_size_hint : unit) : outcome unit * IColumn N * list N :=
  match column_ with
  | ColumnVector rows =>
      (Returned tt, ColumnVector (rows ++ take (N.to_nat limit) istr),
       drop (N.to_nat limit) istr)
  | _ =>
      (Thrown (mkException (OTHER_ERROR 0) "not a column of values"),
       column_, istr)
  end.

Definition tuple_element_b (escape : bool) : @Substream N :=
  mkSubstream TupleElement "b" escape no_data.

Example names_of_nested_column :
  let path := [@Substream_of N ArrayElements; tuple_element_b true;
               Substream_of NullMap] in
  getFileNameForStream sample_escape sample_table_name "n.a" path
  = "n%2Ea%2Eb.null"
  /\ getSubcolumnNameForStream sample_escape path = "b.null"
  /\ getFileNameForStream sample_escape sample_table_name "n.a"
       [@Substream_of N ArraySizes]
     = "n.size0".
Proof. repeat split. Qed.

Lemma names_of_paths_of_same_kind_witness :
  let p := [tuple_element_b true] in
  let q := [mkSubstream TupleElement "b" false
              (mkData (Some DataTypeInt32) None None None)] in
  Forall2 same_kind_and_name p q
  /\ getSubcolumnNameForStream sample_escape p
     = getSubcolumnNameForStream sample_escape q.
Proof.
  intros p q.
  assert (Hkind : Forall2 same_kind_and_name p q).
  { constructor; [split; reflexivity | constructor]. }
  split; [exact Hkind|].
  exact (proj1 (names_of_paths_of_same_kind sample_escape sample_table_name
                  "a" p q Hkind)).
Defined.

Lemma nested_sizes_stream_is_shared_witness :
  let it := @Substream_of N ArraySizes in
  sample_table_name "n.a" <> "n.a"
  /\ sample_table_name "n.b" <> "n.b"
  /\ sample_table_name "n.a" = sample_table_name "n.b"
  /\ getFileNameForStream sample_escape sample_table_name "n.a" [it]
     = getFileNameForStream sample_escape sample_table_name "n.b" [it].
Proof.
  intros it.
  assert (Ha : sample_table_name "n.a" <> "n.a") by discriminate.
  assert (Hb : sample_table_name "n.b" <> "n.b") by discriminate.
  assert (Hab : sample_table_name "n.a" = sample_table_name "n.b")
    by reflexivity.
  repeat (split; [assumption|]).
  destruct (nested_sizes_stream_is_shared sample_escape sample_table_name
              "n.a" "n.b" it eq_refl) as (_ & Hshared & _).
  exact (Hshared Ha Hb Hab).
Defined.

Lemma array_level_adds_up_witness :
  let p := [@Substream_of N ArrayElements] in
  let it := @Substream_of N ArrayElements in
  let q := [@Substream_of N ArraySizes] in
  (N.of_nat (length (p ++ it :: q)) < size_t_range)%N
  /\ getArrayLevel (p ++ it :: q)
     = (getArrayLevel p + getArrayLevel [it] + getArrayLevel q)%N.
Proof.
  intros p it q.
  assert (Hlen : (N.of_nat (length (p ++ it :: q)) < size_t_range)%N)
    by reflexivity.
  split; [exact Hlen|]. exact (proj1 (array_level_adds_up p q it Hlen)).
Defined.

Lemma hasSubcolumnForPath_prefix_witness :
  let path := [tuple_element_b true; Substream_of Regular] in
  hasSubcolumnForPath path 1 = true
  /\ getNameForSubstreamPath sample_escape "" (take 1 path) false <> "".
Proof.
  intros path.
  assert (Hhas : hasSubcolumnForPath path 1 = true) by reflexivity.
  split; [exact Hhas|].
  destruct (hasSubcolumnForPath_prefix sample_escape path 1 Hhas)
    as (_ & _ & Hname).
  exact Hname.
Defined.

Lemma store_keeps_fetched_columns_witness :
  let cache := Some {["b" := Some (ColumnVector [1%N])]} in
  let path := [@Substream_of N NullMap] in
  let path2 := [tuple_element_b true] in
  getFromSubstreamsCache sample_escape cache path2
  = Some (ColumnVector [1%N])
  /\ getFromSubstreamsCache sample_escape
       (addToSubstreamsCache sample_escape cache path
          (Some (ColumnVector [0%N]))) path2
     = Some (ColumnVector [1%N]).
Proof.
  intros cache path path2.
  assert (Hfetch : getFromSubstreamsCache sample_escape cache path2
                   = Some (ColumnVector [1%N])).
  { unfold getFromSubstreamsCache, cache, path2.
    change (getSubcolumnNameForStream sample_escape [tuple_element_b true])
      with "b".
    now rewrite lookup_singleton_eq. }
  split; [exact Hfetch|].
  exact (store_keeps_fetched_columns sample_escape cache path path2
           (Some (ColumnVector [0%N])) (ColumnVector [1%N]) Hfetch).
Defined.

Lemma second_store_changes_nothing_witness :
  let path := [tuple_element_b true] in
  let path2 := [tuple_element_b false] in
  let first := Some (ColumnVector [1%N]) in
  let second := Some (ColumnVector [2%N]) in
  path <> []
  /\ getSubcolumnNameForStream sample_escape path2
     = getSubcolumnNameForStream sample_escape path
  /\ addToSubstreamsCache sample_escape
       (addToSubstreamsCache sample_escape (Some ∅) path first) path2 second
     = addToSubstreamsCache sample_escape (Some ∅) path first.
Proof.
  intros path path2 first second.
  assert (Hpath : path <> []) by discriminate.
  assert (Hname : getSubcolumnNameForStream sample_escape path2
                  = getSubcolumnNameForStream sample_escape path)
    by reflexivity.
  repeat (split; [assumption|]).
  exact (second_store_changes_nothing sample_escape (Some ∅) path path2
           first second Hpath Hname).
Defined.

Lemma deserialize_reads_on_miss_only_witness :
  let getter := fun _ : list (@Substream N) => @None (list N) in
  let path := [tuple_element_b true] in
  getFromSubstreamsCache sample_escape None path = None
  /\ getter path = None
  /\ deserializeBinaryBulkWithMultipleStreams sample_escape sample_read
       (Some (ColumnVector [1%N])) 1%N getter path tt None
     = Some (Returned tt, Some (ColumnVector [1%N]), None, None).
Proof.
  intros getter path.
  assert (Hmiss : getFromSubstreamsCache sample_escape None path = None)
    by reflexivity.
  assert (Hget : getter path = None) by reflexivity.
  repeat (split; [assumption|]).
  destruct (deserialize_reads_on_miss_only sample_escape sample_read
              (Some (ColumnVector [1%N])) 1%N getter path tt None)
    as (_ & Habsent & _).
  exact (Habsent Hmiss Hget).
Defined.

Lemma deserialize_memoizes_witness :
  let path := [tuple_element_b true] in
  let path2 := [tuple_element_b false] in
  let getter := fun _ : list (@Substream N) => Some [7; 8; 9]%N in
  let getter2 := fun _ : list (@Substream N) => @None (list N) in
  exists cache',
    deserializeBinaryBulkWithMultipleStreams sample_escape sample_read
      (Some (ColumnVector [1%N])) 2%N getter path tt (Some ∅)
    = Some (Returned tt, Some (ColumnVector [1; 7; 8]%N), Some [9%N], cache')
    /\ deserializeBinaryBulkWithMultipleStreams sample_escape sample_read
         None 5%N getter2 path2 tt cache'
       = Some (Returned tt, Some (ColumnVector [1; 7; 8]%N), None, cache').
Proof.
  intros path path2 getter getter2.
  assert (Hpath : path <> []) by discriminate.
  assert (Hpath2 : path2 <> []) by discriminate.
  exact (deserialize_memoizes sample_escape sample_read ∅
           (Some (ColumnVector [1%N])) None (ColumnVector [1%N])
           (ColumnVector [1; 7; 8]%N) [7; 8; 9]%N [9%N] 2%N 5%N
           getter getter2 path path2 tt tt
           Hpath Hpath2 eq_refl (lookup_empty _) eq_refl eq_refl eq_refl).
Defined.

Lemma default_entry_points_need_override_witness :
  let put := fun _ : list (@Substream N) => @None (list N) in
  let path := [@Substream_of N Regular] in
  put path = None
  /\ fst (serializeBinaryBulkWithMultipleStreams
            (serializeBinaryBulk (fun _ : IColumn N => "UInt8"))
            (ColumnVector [1%N]) 0%N 1%N put path)
     = Returned tt.
Proof.
  intros put path.
  assert (Hput : put path = None) by reflexivity.
  split; [exact Hput|].
  destruct (default_entry_points_need_override sample_escape
              (fun _ : IColumn N => "UInt8") (ReadBuffer := list N)
              (ColumnVector [1%N]) 0%N 1%N put (fun _ => None) path tt None)
    as (_ & Hreturns & _).
  exact (Hreturns Hput).
Defined.

Lemma createFromPath_keeps_nulls_witness :
  exists res,
    createFromPath path_Nullable_Array_Int32 2 = Some res
    /\ creator res = None
    /\ (is_Some (column res) <-> is_Some (@None (IColumn N))).
Proof.
  destruct (createFromPath path_Nullable_Array_Int32 2) as [res|] eqn:Hrun;
    [|discriminate].
  exists res. split; [reflexivity|].
  destruct (createFromPath_keeps_nulls path_Nullable_Array_Int32 2
              (mkSubstream Regular "" true
                 (mkData (Some DataTypeInt32) None
                    (Some serialization_Int32) None))
              res eq_refl Hrun) as (Hcreator & _ & Hcolumn & _).
  split; [exact Hcreator | exact Hcolumn].
Defined.

Lemma createFromPath_reads_prefix_witness :
  1 < length path_NullMap_ArrayElements
  /\ createFromPath
       (path_NullMap_ArrayElements ++ [Substream_of Regular]) 1
     = createFromPath path_NullMap_ArrayElements 1.
Proof.
  assert (Hlt : 1 < length path_NullMap_ArrayElements) by (simpl; lia).
  split; [exact Hlt|].
  exact (createFromPath_reads_prefix path_NullMap_ArrayElements
           [Substream_of Regular] 1 Hlt).
Defined.

End ISerialization.

(** ** map.cpp *)

Module FunctionMap.
Section Functions.
Context {Field : Type}.

(** [ColumnWithTypeAndName]; its fields [column], [type] and [name]. *)
Record ColumnWithTypeAndName : Type := mkArgument {
  arg_column : IColumn Field;
  arg_type : DataType;
  arg_name : string }.

(** [getLeastSupertype] (DataTypes/getLeastSupertype.h), [castColumn]
    (Interpreters/castColumn.h) and [IDataType::getDefault] are not among the
    sources. The first one returns a type or throws; the cast is taken as the
    function it computes. *)
Variable getLeastSupertype : list DataType -> outcome DataType.
Variable castColumn : ColumnWithTypeAndName -> DataType -> IColumn Field.
Variable getDefault : DataType -> Field.

Definition name : string := "map".

(** *** getReturnTypeImpl *)

(** The loop [for (i = 0; i < arguments.size(); i += 2)] that fills [keys]
    and [values]. [None] is a read past the end of [arguments], or no
    iteration left in [fuel]. *)
Fixpoint split_arguments (fuel i : nat) (arguments keys values : list DataType)
  : option (list DataType * list DataType) :=
  match fuel with
  | 0 => None
  | S fuel =>
      if i <? length arguments then
        match arguments !! i, arguments !! (i + 1) with
        | Some k, Some v =>
            split_arguments fuel (i + 2) arguments (keys ++ [k]) (values ++ [v])
        | _, _ => None
        end
      else Some (keys, values)
  end.

(** [getReturnTypeImpl]; the outer [None] is undefined behaviour, which the
    check of the number of arguments excludes. *)
Definition getReturnTypeImpl (arguments : list DataType)
  : option (outcome DataType) :=
  if negb (length arguments mod 2 =? 0) then
    Some (Thrown
            (mkException NUMBER_OF_ARGUMENTS_DOESNT_MATCH
               ("Function " +:+ name
                +:+ " requires even number of arguments, but "
                +:+ toString (N.of_nat (length arguments)) +:+ " given")))
  else
    match split_arguments (S (length arguments)) 0 arguments [] [] with
    | None => None
    | Some (keys, values) =>
        match getLeastSupertype keys with
        | Thrown e => Some (Thrown e)
        | Returned key_type =>
            match getLeastSupertype values with
            | Thrown e => Some (Thrown e)
            | Returned value_type =>
                Some (Returned (DataTypeMap key_type value_type))
            end
        end
    end.

(** The elements at the even and at the odd positions of a list, counted
    from 0. *)
Fixpoint at_even {A : Type} (l : list A) : list A :=
  match l with
  | [] => []
  | [x] => [x]
  | x :: _ :: rest => x :: at_even rest
  end.

Fixpoint at_odd {A : Type} (l : list A) : list A :=
  match l with
  | _ :: y :: rest => y :: at_odd rest
  | _ => []
  end.

(** *** executeImpl *)

(** [IDataType::createColumnConstWithDefaultValue]. *)
Definition createColumnConstWithDefaultValue (type_ : DataType) (size : nat)
  : IColumn Field :=
  ColumnConst (getDefault type_) size.

(** The operations of IColumn and IDataType that [executeImpl] calls are
    virtual and not among the sources (Columns/IColumn.h,
    DataTypes/IDataType.h); they are taken as they are, for columns of any
    kind. [createColumn] is the empty column of a type,
    [convertToFullColumnIfConst] the full column of a constant one, and
    [insertFrom dst src n] the column [dst] after [dst->insertFrom(src, n)],
    [None] where the call has no defined result (no row [n] in [src]).
    [rows_of] is what [size()] and [operator[]] show of a column: the values
    of its rows. *)
Variable createColumn : DataType -> IColumn Field.
Variable convertToFullColumnIfConst : IColumn Field -> IColumn Field.
Variable insertFrom :
  IColumn Field -> IColumn Field -> nat -> option (IColumn Field).
Variable rows_of : IColumn Field -> list Field.

(** What the theorems below assume of these operations: a created column
    has no row, the full column of a column has its rows, and an insertion
    from a row that is there appends the value of that row. *)
Definition creates_empty_columns : Prop :=
  forall type_, rows_of (createColumn type_) = [].

Definition full_column_keeps_rows : Prop :=
  forall c, rows_of (convertToFullColumnIfConst c) = rows_of c.

Definition insertFrom_appends_row : Prop :=
  forall dst src n x,
    rows_of src !! n = Some x ->
    exists dst',
      insertFrom dst src n = Some dst' /\ rows_of dst' = rows_of dst ++ [x].

(** A weaker assumption: an insertion that is defined adds one row. *)
Definition insertFrom_adds_one_row : Prop :=
  forall dst src n dst',
    insertFrom dst src n = Some dst' ->
    length (rows_of dst') = S (length (rows_of dst)).

(** The first loop: argument [i] is cast to the key type when [i] is even
    and to the value type when it is odd, and made a full column. *)
Definition preprocess (key_type value_type : DataType) (i : nat)
    (arg : ColumnWithTypeAndName) : IColumn Field :=
  let to_type := if i mod 2 =? 0 then key_type else value_type in
  convertToFullColumnIfConst (castColumn arg to_type).

(** The inner loop [for (j = 0; j < num_elements; j += 2)] for row [i];
    [num_elements] is the size of [column_ptrs]. [None] is a read past the
    end of [column_ptrs], an insertion without a defined result, or no
    iteration left in [fuel]. *)
Fixpoint insert_row (fuel j : nat) (column_ptrs : list (IColumn Field))
    (i : nat) (keys_data values_data : IColumn Field)
  : option (IColumn Field * IColumn Field) :=
  match fuel with
  | 0 => None
  | S fuel =>
      if j <? length column_ptrs then
        match column_ptrs !! j, column_ptrs !! (j + 1) with
        | Some key_column, Some value_column =>
            match insertFrom keys_data key_column i with
            | Some keys_data =>
                match insertFrom values_data value_column i with
                | Some values_data =>
                    insert_row fuel (j + 2) column_ptrs i keys_data values_data
                | None => None
                end
            | None => None
            end
        | _, _ => None
        end
      else Some (keys_data, values_data)
  end.

(** The outer loop [for (i = 0; i < input_rows_count; ++i)], with [count]
    rows to go from row [i]; [offsets] is the content of the column of
    offsets. The calls of [reserve] before the loop change no content and
    are left out. *)
Fixpoint fill_rows (count i : nat) (column_ptrs : list (IColumn Field))
    (keys_data values_data : IColumn Field) (offsets : list N)
    (current_offset : N)
  : option (IColumn Field * IColumn Field * list N) :=
  match count with
  | 0 => Some (keys_data, values_data, offsets)
  | S count =>
      match insert_row (S (length column_ptrs)) 0 column_ptrs i
              keys_data values_data with
      | Some (keys_data, values_data) =>
          let current_offset :=
            wrap64 (current_offset + N.of_nat (length column_ptrs / 2)) in
          fill_rows count (S i) column_ptrs keys_data values_data
            (offsets ++ [current_offset]) current_offset
      | None => None
      end
  end.

(** [executeImpl]; [keys_data] and [values_data] start as
    [key_type->createColumn()] and [value_type->createColumn()]. The outer
    [None] is undefined behaviour: a result type that is not a map type, a
    read past the end of a vector, or an insertion without a defined
    result. *)
Definition executeImpl (arguments : list ColumnWithTypeAndName)
    (result_type : DataType) (input_rows_count : nat)
  : option (IColumn Field) :=
  let num_elements := length arguments in
  if num_elements =? 0 then
    Some (createColumnConstWithDefaultValue result_type input_rows_count)
  else
    match result_type with
    | DataTypeMap key_type value_type =>
        let column_ptrs := imap (preprocess key_type value_type) arguments in
        match fill_rows input_rows_count 0 column_ptrs
                (createColumn key_type) (createColumn value_type) [] 0%N with
        | Some (keys_data, values_data, offsets) =>
            Some (ColumnMap
                    (ColumnArray (ColumnTuple [keys_data; values_data])
                       offsets))
        | None => None
        end
    | _ => None
    end.

(** *** mapKeys and mapValues *)

(** [FunctionMapKeys::executeImpl]: the column of position 0 of the nested
    tuple with the offsets of the nested array; a null pointer when the
    argument is not a map column. *)
Definition mapKeys_executeImpl (arguments : list ColumnWithTypeAndName)
  : option (option (IColumn Field)) :=
  match arguments !! 0 with
  | Some arg =>
      match arg_column arg with
      | ColumnMap (ColumnArray (ColumnTuple columns) offsets) =>
          match columns !! 0 with
          | Some keys_data => Some (Some (ColumnArray keys_data offsets))
          | None => None
          end
      | ColumnMap _ => None
      | _ => Some None
      end
  | None => None
  end.

(** [FunctionMapValues::executeImpl]: the same with position 1. *)
Definition mapValues_executeImpl (arguments : list ColumnWithTypeAndName)
  : option (option (IColumn Field)) :=
  match arguments !! 0 with
  | Some arg =>
      match arg_column arg with
      | ColumnMap (ColumnArray (ColumnTuple columns) offsets) =>
          match columns !! 1 with
          | Some values_data => Some (Some (ColumnArray values_data offsets))
          | None => None
          end
      | ColumnMap _ => None
      | _ => Some None
      end
  | None => None
  end.

(** *** Properties of the positions *)

Lemma at_even_lookup {A : Type} (j : nat) :
  forall l : list A, at_even l !! j = l !! (2 * j).
Proof.
  induction j as [|j IH]; intros [|x [|y l]]; try reflexivity.
  replace (2 * S j) with (S (S (2 * j))) by lia. simpl. apply IH.
Qed.

Lemma at_odd_lookup {A : Type} (j : nat) :
  forall l : list A, at_odd l !! j = l !! (2 * j + 1).
Proof.
  induction j as [|j IH]; intros [|x [|y l]]; try reflexivity.
  replace (2 * S j + 1) with (S (S (2 * j + 1))) by lia. simpl. apply IH.
Qed.

Lemma at_even_length {A : Type} (h : nat) :
  forall l : list A, length l = 2 * h -> length (at_even l) = h.
Proof.
  induction h as [|h IH]; intros [|x [|y l]] Hlen; simpl in *; try lia.
  rewrite IH; lia.
Qed.

Lemma at_odd_length {A : Type} (h : nat) :
  forall l : list A, length l = 2 * h -> length (at_odd l) = h.
Proof.
  induction h as [|h IH]; intros [|x [|y l]] Hlen; simpl in *; try lia.
  rewrite IH; lia.
Qed.

(** Two elements from position [2 * k] on, when there are [2 * h] of them
    and [k < h]. *)
Lemma drop_pair {A : Type} (l : list A) (h k : nat) :
  length l = 2 * h -> k < h ->
  exists x y,
    l !! (2 * k) = Some x /\ l !! (2 * k + 1) = Some y
    /\ drop (2 * k) l = x :: y :: drop (2 * S k) l.
Proof.
  intros Hlen Hk.
  destruct (lookup_lt_is_Some_2 l (2 * k)) as [x Hx]; [lia|].
  destruct (lookup_lt_is_Some_2 l (2 * k + 1)) as [y Hy]; [lia|].
  exists x, y. repeat split; try assumption.
  rewrite (drop_S _ _ _ Hx).
  replace (S (2 * k)) with (2 * k + 1) by lia.
  rewrite (drop_S _ _ _ Hy). do 3 f_equal. lia.
Qed.

(** *** Properties of getReturnTypeImpl *)

Lemma split_arguments_positions (arguments : list DataType) (h : nat) :
  length arguments = 2 * h ->
  forall (fuel k : nat) (keys values : list DataType),
    k <= h -> h - k < fuel ->
    split_arguments fuel (2 * k) arguments keys values
    = Some (keys ++ at_even (drop (2 * k) arguments),
            values ++ at_odd (drop (2 * k) arguments)).
Proof.
  intros Hlen. induction fuel as [|fuel IH]; intros k keys values Hk Hfuel.
  - lia.
  - cbn [split_arguments].
    destruct (Nat.ltb_spec (2 * k) (length arguments)) as [Hlt|Hge].
    + destruct (drop_pair arguments h k Hlen) as (x & y & Hx & Hy & Hdrop);
        [lia|].
      rewrite Hx, Hy, Hdrop. cbn [at_even at_odd].
      replace (2 * k + 2) with (2 * S k) by lia.
      rewrite IH by lia. now rewrite <- !app_assoc.
    + rewrite drop_ge by lia. simpl. now rewrite !app_nil_r.
Qed.

Lemma even_half (n : nat) : n mod 2 = 0 -> n = 2 * (n / 2).
Proof.
  intros H. pose proof (Nat.div_mod_eq n 2). lia.
Qed.

(** What [getReturnTypeImpl] computes for an even number of arguments. *)
Lemma getReturnTypeImpl_even (arguments : list DataType) :
  length arguments mod 2 = 0 ->
  getReturnTypeImpl arguments
  = Some match getLeastSupertype (at_even arguments) with
         | Thrown e => Thrown e
         | Returned key_type =>
             match getLeastSupertype (at_odd arguments) with
             | Thrown e => Thrown e
             | Returned value_type => Returned (DataTypeMap key_type value_type)
             end
         end.
Proof.
  intros Heven. unfold getReturnTypeImpl. rewrite Heven. simpl negb.
  cbn iota.
  pose proof (even_half _ Heven) as Hhalf.
  pose proof (split_arguments_positions arguments _ Hhalf
                (S (length arguments)) 0 [] []) as Hsplit.
  change (2 * 0) with 0 in Hsplit. rewrite drop_0 in Hsplit.
  rewrite Hsplit by lia.
  simpl. destruct (getLeastSupertype (at_even arguments)); [|reflexivity].
  now destruct (getLeastSupertype (at_odd arguments)).
Qed.

(** C9: getReturnTypeImpl of map throws NUMBER_OF_ARGUMENTS_DOESNT_MATCH
    exactly when the number of arguments is odd, getLeastSupertype not being
    the one that throws this code; for an even number of arguments it
    returns the map type of the least supertype of the types at the even
    positions and the least supertype of the types at the odd positions. *)
Theorem getReturnTypeImpl_map_type (arguments : list DataType) :
  (forall types e,
      getLeastSupertype types = Thrown e ->
      code e <> NUMBER_OF_ARGUMENTS_DOESNT_MATCH) ->
  ((exists e,
       getReturnTypeImpl arguments = Some (Thrown e)
       /\ code e = NUMBER_OF_ARGUMENTS_DOESNT_MATCH)
   <-> length arguments mod 2 = 1)
  /\ (length arguments mod 2 = 0 ->
      forall key_type value_type,
        getLeastSupertype (at_even arguments) = Returned key_type ->
        getLeastSupertype (at_odd arguments) = Returned value_type ->
        getReturnTypeImpl arguments
        = Some (Returned (DataTypeMap key_type value_type))).
Proof.
  intros Hcallee. split; [split|].
  - intros (e & Hthrow & Hcode).
    destruct (Nat.mod_bound_pos (length arguments) 2) as [_ Hlt]; [lia..|].
    destruct (length arguments mod 2) as [|[|r]] eqn:Hmod; [|reflexivity|lia].
    exfalso. rewrite getReturnTypeImpl_even in Hthrow by assumption.
    destruct (getLeastSupertype (at_even arguments)) as [k|e1] eqn:Hk.
    + destruct (getLeastSupertype (at_odd arguments)) as [v|e2] eqn:Hv.
      * discriminate.
      * injection Hthrow as <-. exact (Hcallee _ _ Hv Hcode).
    + injection Hthrow as <-. exact (Hcallee _ _ Hk Hcode).
  - intros Hodd. unfold getReturnTypeImpl. rewrite Hodd. simpl.
    eexists. split; reflexivity.
  - intros Heven key_type value_type Hk Hv.
    rewrite getReturnTypeImpl_even by assumption. now rewrite Hk, Hv.
Qed.

(** *** Properties of executeImpl *)

Lemma half_double (h : nat) : 2 * h / 2 = h.
Proof. rewrite Nat.mul_comm. apply Nat.div_mul. lia. Qed.

Lemma even_position (j : nat) : (2 * j) mod 2 = 0.
Proof. rewrite Nat.mul_comm. apply Nat.Div0.mod_mul. Qed.

Lemma odd_position (j : nat) : (2 * j + 1) mod 2 = 1.
Proof.
  rewrite Nat.add_comm, Nat.mul_comm. now rewrite Nat.Div0.mod_add.
Qed.

(** The inner loop appends row [i] of the columns at the even positions to
    the keys and row [i] of those at the odd positions to the values. *)
Lemma insert_row_appends (column_ptrs : list (IColumn Field)) (h i : nat) :
  insertFrom_appends_row ->
  length column_ptrs = 2 * h ->
  (forall c, c ∈ column_ptrs -> is_Some (rows_of c !! i)) ->
  forall (fuel k : nat) (keys_data values_data : IColumn Field),
    k <= h -> h - k < fuel ->
    exists keys' values' ks vs,
      insert_row fuel (2 * k) column_ptrs i keys_data values_data
      = Some (keys', values')
      /\ rows_of keys' = rows_of keys_data ++ ks
      /\ rows_of values' = rows_of values_data ++ vs
      /\ Forall2 (fun c x => rows_of c !! i = Some x)
           (at_even (drop (2 * k) column_ptrs)) ks
      /\ Forall2 (fun c x => rows_of c !! i = Some x)
           (at_odd (drop (2 * k) column_ptrs)) vs.
Proof.
  intros Hinsert Hlen Hrows.
  induction fuel as [|fuel IH]; intros k keys_data values_data Hk Hfuel.
  - lia.
  - cbn [insert_row].
    destruct (Nat.ltb_spec (2 * k) (length column_ptrs)) as [Hlt|Hge].
    + destruct (drop_pair column_ptrs h k Hlen) as (kc & vc & Hkc & Hvc & Hdrop);
        [lia|].
      rewrite Hkc, Hvc, Hdrop. cbn [at_even at_odd].
      destruct (Hrows kc (list_elem_of_lookup_2 _ _ _ Hkc)) as [x Hx].
      destruct (Hrows vc (list_elem_of_lookup_2 _ _ _ Hvc)) as [y Hy].
      destruct (Hinsert keys_data kc i x Hx) as (keys1 & -> & Hkeys1).
      destruct (Hinsert values_data vc i y Hy) as (values1 & -> & Hvalues1).
      replace (2 * k + 2) with (2 * S k) by lia.
      destruct (IH (S k) keys1 values1)
        as (keys' & values' & ks & vs & Hrun & Hkeys' & Hvalues' & Hks & Hvs);
        [lia..|].
      exists keys', values', (x :: ks), (y :: vs).
      rewrite Hrun, Hkeys', Hvalues', Hkeys1, Hvalues1, <- !app_assoc.
      split; [reflexivity|]. split; [reflexivity|]. split; [reflexivity|].
      split; constructor; assumption.
    + rewrite drop_ge by lia. exists keys_data, values_data, [], [].
      rewrite !app_nil_r.
      split; [reflexivity|]. split; [reflexivity|]. split; [reflexivity|].
      split; constructor.
Qed.

(** The outer loop, from row [i] on, for [count] rows. *)
Lemma fill_rows_appends (column_ptrs : list (IColumn Field)) (h : nat) :
  insertFrom_appends_row ->
  length column_ptrs = 2 * h ->
  forall (count i : nat) (keys_data values_data : IColumn Field)
         (offsets : list N) (current_offset : N),
    (forall i' c, i <= i' < i + count -> c ∈ column_ptrs ->
                  is_Some (rows_of c !! i')) ->
    (current_offset + N.of_nat (count * h) < size_t_range)%N ->
    exists keys' values' ks vs offs,
      fill_rows count i column_ptrs keys_data values_data offsets
        current_offset
      = Some (keys', values', offsets ++ offs)
      /\ rows_of keys' = rows_of keys_data ++ ks
      /\ rows_of values' = rows_of values_data ++ vs
      /\ length offs = count
      /\ length ks = count * h
      /\ length vs = count * h
      /\ (forall a, a < count ->
            offs !! a = Some (current_offset + N.of_nat ((a + 1) * h))%N)
      /\ (forall a j, a < count -> j < h ->
            exists kc vc,
              column_ptrs !! (2 * j) = Some kc
              /\ column_ptrs !! (2 * j + 1) = Some vc
              /\ ks !! (a * h + j) = rows_of kc !! (i + a)
              /\ vs !! (a * h + j) = rows_of vc !! (i + a)).
Proof.
  intros Hinsert Hlen.
  induction count as [|count IH];
    intros i keys_data values_data offsets current_offset Hrows Hbound.
  - exists keys_data, values_data, [], [], []. cbn [fill_rows].
    rewrite !app_nil_r. repeat split; intros; lia.
  - cbn [fill_rows].
    destruct (insert_row_appends column_ptrs h i Hinsert Hlen) with
      (fuel := S (length column_ptrs)) (k := 0)
      (keys_data := keys_data) (values_data := values_data)
      as (keys1 & values1 & ks0 & vs0 & Hrun & Hkeys1 & Hvalues1 & Hks0 & Hvs0);
      [|lia|lia|].
    { intros c Hc. apply (Hrows i c); [lia | exact Hc]. }
    change (2 * 0) with 0 in Hrun, Hks0, Hvs0.
    rewrite drop_0 in Hks0, Hvs0. rewrite Hrun.
    assert (Hlen_ks0 : length ks0 = h).
    { rewrite <- (Forall2_length _ _ _ Hks0). now apply at_even_length. }
    assert (Hlen_vs0 : length vs0 = h).
    { rewrite <- (Forall2_length _ _ _ Hvs0). now apply at_odd_length. }
    rewrite Hlen, half_double.
    rewrite wrap64_small by lia.
    destruct (IH (S i) keys1 values1
                (offsets ++ [(current_offset + N.of_nat h)%N])
                (current_offset + N.of_nat h)%N)
      as (keys' & values' & ks & vs & offs & Hrest & Hkeys' & Hvalues'
          & Hlen_offs & Hlen_ks & Hlen_vs & Hoffs & Hcells).
    { intros i' c Hi' Hc. apply (Hrows i' c); [lia | exact Hc]. }
    { lia. }
    exists keys', values', (ks0 ++ ks), (vs0 ++ vs),
      ((current_offset + N.of_nat h)%N :: offs).
    rewrite Hrest, Hkeys', Hvalues', Hkeys1, Hvalues1, <- !app_assoc.
    split; [reflexivity|]. split; [reflexivity|]. split; [reflexivity|].
    split; [simpl; lia|].
    split; [rewrite length_app; lia|].
    split; [rewrite length_app; lia|].
    split.
    + intros [|a] Ha.
      * simpl. f_equal. lia.
      * simpl. rewrite Hoffs by lia. f_equal. lia.
    + intros [|a] j Ha Hj.
      * destruct (lookup_lt_is_Some_2 column_ptrs (2 * j)) as [kc Hkc]; [lia|].
        destruct (lookup_lt_is_Some_2 column_ptrs (2 * j + 1)) as [vc Hvc];
          [lia|].
        exists kc, vc. split; [exact Hkc|]. split; [exact Hvc|].
        rewrite Nat.add_0_r. change (0 * h + j) with j.
        rewrite !lookup_app_l by lia.
        destruct (lookup_lt_is_Some_2 ks0 j) as [x Hx]; [lia|].
        destruct (lookup_lt_is_Some_2 vs0 j) as [y Hy]; [lia|].
        rewrite <- at_even_lookup in Hkc. rewrite <- at_odd_lookup in Hvc.
        rewrite (Forall2_lookup_lr _ _ _ _ _ _ Hks0 Hkc Hx).
        rewrite (Forall2_lookup_lr _ _ _ _ _ _ Hvs0 Hvc Hy).
        split; assumption.
      * destruct (Hcells a j) as (kc & vc & Hkc & Hvc & Hk & Hv); [lia..|].
        exists kc, vc. split; [exact Hkc|]. split; [exact Hvc|].
        rewrite !lookup_app_r by (simpl; lia).
        replace (S a * h + j - length ks0) with (a * h + j) by (simpl; lia).
        replace (S a * h + j - length vs0) with (a * h + j) by (simpl; lia).
        replace (i + S a) with (S i + a) by lia. split; assumption.
Qed.

Lemma preprocess_even (key_type value_type : DataType) (j : nat)
    (arg : ColumnWithTypeAndName) :
  preprocess key_type value_type (2 * j) arg
  = convertToFullColumnIfConst (castColumn arg key_type).
Proof. unfold preprocess. now rewrite even_position. Qed.

Lemma preprocess_odd (key_type value_type : DataType) (j : nat)
    (arg : ColumnWithTypeAndName) :
  preprocess key_type value_type (2 * j + 1) arg
  = convertToFullColumnIfConst (castColumn arg value_type).
Proof. unfold preprocess. now rewrite odd_position. Qed.

(** C10: for an even number n of argument columns of any kind, none of
    them shorter than the r rows asked for once cast, executeImpl of map
    returns a map column of r rows: offset i is (i + 1) * (n / 2), so each
    row holds n / 2 pairs, and pair j of row i is row i of argument 2 * j
    cast to the key type with row i of argument 2 * j + 1 cast to the value
    type. Without arguments it returns the constant column of r default
    values of the result type. The operations of the columns are those of
    IColumn: a created column is empty, making a column full keeps its
    rows, and insertFrom appends the row it is given. *)
Theorem executeImpl_map_rows (arguments : list ColumnWithTypeAndName)
    (key_type value_type : DataType) (input_rows_count : nat) :
  let n := length arguments in
  (forall result_type,
      executeImpl [] result_type input_rows_count
      = Some (ColumnConst (getDefault result_type) input_rows_count))
  /\ (n <> 0 -> n mod 2 = 0 ->
      creates_empty_columns ->
      full_column_keeps_rows ->
      insertFrom_appends_row ->
      (forall j arg,
          arguments !! j = Some arg ->
          input_rows_count
          <= length (rows_of (castColumn arg (if j mod 2 =? 0 then key_type
                                              else value_type)))) ->
      (N.of_nat (input_rows_count * (n / 2)) < size_t_range)%N ->
      exists keys_data values_data offsets,
        executeImpl arguments (DataTypeMap key_type value_type)
          input_rows_count
        = Some (ColumnMap
                  (ColumnArray (ColumnTuple [keys_data; values_data])
                     offsets))
        /\ length offsets = input_rows_count
        /\ length (rows_of keys_data) = input_rows_count * (n / 2)
        /\ length (rows_of values_data) = input_rows_count * (n / 2)
        /\ (forall i, i < input_rows_count ->
              offsets !! i = Some (N.of_nat ((i + 1) * (n / 2))))
        /\ (forall i j, i < input_rows_count -> j < n / 2 ->
              exists key_arg value_arg k v,
                arguments !! (2 * j) = Some key_arg
                /\ arguments !! (2 * j + 1) = Some value_arg
                /\ rows_of (castColumn key_arg key_type) !! i = Some k
                /\ rows_of (castColumn value_arg value_type) !! i = Some v
                /\ rows_of keys_data !! (i * (n / 2) + j) = Some k
                /\ rows_of values_data !! (i * (n / 2) + j) = Some v)).
Proof.
  intros n. split; [reflexivity|].
  intros Hn Heven Hcreate Hfull Hinsert Hrows Hbound.
  pose proof (even_half _ Heven) as Hhalf. fold n in Hhalf.
  set (h := n / 2) in *.
  set (column_ptrs := imap (preprocess key_type value_type) arguments).
  assert (Hlen : length column_ptrs = 2 * h).
  { unfold column_ptrs. now rewrite length_imap. }
  assert (Hhas : forall i' c, 0 <= i' < 0 + input_rows_count ->
                              c ∈ column_ptrs -> is_Some (rows_of c !! i')).
  { intros i' c Hi' Hc. apply list_elem_of_lookup_1 in Hc as [j Hj].
    unfold column_ptrs in Hj. rewrite list_lookup_imap in Hj.
    destruct (arguments !! j) as [arg|] eqn:Harg; [|discriminate].
    injection Hj as <-. unfold preprocess. rewrite Hfull.
    apply lookup_lt_is_Some_2. specialize (Hrows j arg Harg). lia. }
  destruct (fill_rows_appends column_ptrs h Hinsert Hlen input_rows_count 0
              (createColumn key_type) (createColumn value_type) [] 0%N Hhas)
    as (keys' & values' & ks & vs & offs & Hrun & Hkeys' & Hvalues'
        & Hlen_offs & Hlen_ks & Hlen_vs & Hoffs & Hcells); [lia|].
  rewrite Hcreate in Hkeys', Hvalues'. simpl in Hkeys', Hvalues'.
  exists keys', values', offs. unfold executeImpl. fold n.
  destruct (Nat.eqb_spec n 0) as [|_]; [contradiction|].
  fold column_ptrs. rewrite Hrun, Hkeys', Hvalues'.
  split; [reflexivity|]. split; [exact Hlen_offs|].
  split; [exact Hlen_ks|]. split; [exact Hlen_vs|]. split.
  - intros i Hi. rewrite Hoffs by exact Hi. f_equal.
  - intros i j Hi Hj.
    destruct (Hcells i j Hi Hj) as (kc & vc & Hkc & Hvc & Hk & Hv).
    unfold column_ptrs in Hkc, Hvc. rewrite list_lookup_imap in Hkc, Hvc.
    destruct (arguments !! (2 * j)) as [key_arg|] eqn:Hkey; [|discriminate].
    destruct (arguments !! (2 * j + 1)) as [value_arg|] eqn:Hvalue;
      [|discriminate].
    change (Some (preprocess key_type value_type (2 * j) key_arg) = Some kc)
      in Hkc.
    change (Some (preprocess key_type value_type (2 * j + 1) value_arg)
            = Some vc) in Hvc.
    assert (kc = preprocess key_type value_type (2 * j) key_arg)
      by congruence.
    assert (vc = preprocess key_type value_type (2 * j + 1) value_arg)
      by congruence.
    subst kc vc. clear Hkc Hvc.
    rewrite preprocess_even, Hfull in Hk.
    rewrite preprocess_odd, Hfull in Hv.
    change (0 + i) with i in Hk, Hv.
    destruct (lookup_lt_is_Some_2 ks (i * h + j)) as [k Hk']; [nia|].
    destruct (lookup_lt_is_Some_2 vs (i * h + j)) as [v Hv']; [nia|].
    exists key_arg, value_arg, k, v.
    rewrite <- Hk, <- Hv. repeat split; assumption.
Qed.

(** [mapKeys] and [mapValues] of the column that [map] builds are the two
    columns of its nested tuple, each with the offsets of the map. *)
Lemma mapKeys_mapValues_of_map (keys_data values_data : IColumn Field)
    (offsets : list N) (type_ : DataType) (name_ : string) :
  let arg :=
    mkArgument
      (ColumnMap (ColumnArray (ColumnTuple [keys_data; values_data]) offsets))
      type_ name_ in
  mapKeys_executeImpl [arg] = Some (Some (ColumnArray keys_data offsets))
  /\ mapValues_executeImpl [arg]
     = Some (Some (ColumnArray values_data offsets)).
Proof. split; reflexivity. Qed.

(** *** Further functions of map.cpp *)

(** [FunctionMapKeys::getReturnTypeImpl]; [checkAndGetDataType<DataTypeMap>]
    is the match on the type of the argument. *)
Definition mapKeys_getReturnTypeImpl (arguments : list ColumnWithTypeAndName)
  : option (outcome DataType) :=
  if negb (length arguments =? 1) then
    Some (Thrown
            (mkException NUMBER_OF_ARGUMENTS_DOESNT_MATCH
               ("Number of arguments for function mapKeys doesn't match: passed "
                +:+ toString (N.of_nat (length arguments))
                +:+ ", should be 1")))
  else
    match arguments !! 0 with
    | Some arg =>
        match arg_type arg with
        | DataTypeMap key_type _ => Some (Returned (DataTypeArray key_type))
        | _ =>
            Some (Thrown
                    (mkException ILLEGAL_TYPE_OF_ARGUMENT
                       "First argument for function mapKeys must be a map"))
        end
    | None => None
    end.

(** [FunctionMapValues::getReturnTypeImpl]. *)
Definition mapValues_getReturnTypeImpl (arguments : list ColumnWithTypeAndName)
  : option (outcome DataType) :=
  if negb (length arguments =? 1) then
    Some (Thrown
            (mkException NUMBER_OF_ARGUMENTS_DOESNT_MATCH
               ("Number of arguments for function mapValues doesn't match: passed "
                +:+ toString (N.of_nat (length arguments))
                +:+ ", should be 1")))
  else
    match arguments !! 0 with
    | Some arg =>
        match arg_type arg with
        | DataTypeMap _ value_type => Some (Returned (DataTypeArray value_type))
        | _ =>
            Some (Thrown
                    (mkException ILLEGAL_TYPE_OF_ARGUMENT
                       "First argument for function mapValues must be a map"))
        end
    | None => None
    end.

(** [isStringOrFixedString] (DataTypes/IDataType.h), on the types at hand. *)
Definition isStringOrFixedString (type_ : DataType) : bool :=
  match type_ with
  | DataTypeString | DataTypeFixedString _ => true
  | _ => false
  end.

(** [FunctionMapContainsKeyLike::getReturnTypeImpl]: the two casts come
    first, then the three checks in their order. *)
Definition mapContainsKeyLike_getReturnTypeImpl
    (arguments : list ColumnWithTypeAndName) : option (outcome DataType) :=
  if negb (length arguments =? 2) then
    Some (Thrown
            (mkException NUMBER_OF_ARGUMENTS_DOESNT_MATCH
               ("Number of arguments for function mapContainsKeyLike doesn't match: passed "
                +:+ toString (N.of_nat (length arguments))
                +:+ ", should be 2")))
  else
    match arguments !! 0, arguments !! 1 with
    | Some arg0, Some arg1 =>
        let map_type :=
          match arg_type arg0 with
          | DataTypeMap key_type value_type => Some (key_type, value_type)
          | _ => None
          end in
        let pattern_type :=
          match arg_type arg1 with
          | DataTypeString => Some DataTypeString
          | _ => None
          end in
        match map_type with
        | None =>
            Some (Thrown
                    (mkException ILLEGAL_TYPE_OF_ARGUMENT
                       "First argument for function mapContainsKeyLike must be a Map"))
        | Some (key_type, _) =>
            match pattern_type with
            | None =>
                Some (Thrown
                        (mkException ILLEGAL_TYPE_OF_ARGUMENT
                           "Second argument for function mapContainsKeyLike must be String"))
            | Some _ =>
                if negb (isStringOrFixedString key_type) then
                  Some (Thrown
                          (mkException ILLEGAL_TYPE_OF_ARGUMENT
                             "Key type of map for function mapContainsKeyLike must be `String` or `FixedString`"))
                else Some (Returned DataTypeUInt8)
            end
        end
    | _, _ => None
    end.

(** *** Further properties of map *)

(** X16: getReturnTypeImpl of map never reads past the end of its
    arguments; it throws its own error for an odd number of them and, for an
    even number, nothing but what getLeastSupertype throws, the error for
    the keys before the one for the values. *)
Theorem getReturnTypeImpl_throws_of_callee_only (arguments : list DataType) :
  exists result,
    getReturnTypeImpl arguments = Some result
    /\ (length arguments mod 2 = 0 ->
        forall e,
          result = Thrown e ->
          getLeastSupertype (at_even arguments) = Thrown e
          \/ (exists key_type,
                 getLeastSupertype (at_even arguments) = Returned key_type)
             /\ getLeastSupertype (at_odd arguments) = Thrown e).
Proof.
  destruct (length arguments mod 2) as [|r] eqn:Hmod.
  - rewrite getReturnTypeImpl_even by assumption. eexists.
    split; [reflexivity|]. intros _ e.
    destruct (getLeastSupertype (at_even arguments)) as [k|e1].
    + destruct (getLeastSupertype (at_odd arguments)) as [v|e2];
        [discriminate|].
      intros [= ->]. right. eauto.
    + intros [= ->]. now left.
  - unfold getReturnTypeImpl. rewrite Hmod. simpl. eexists.
    split; [reflexivity|]. discriminate.
Qed.

Lemma insert_row_grows (column_ptrs : list (IColumn Field)) (i : nat) :
  insertFrom_adds_one_row ->
  forall (fuel j : nat) (keys_data values_data keys' values' : IColumn Field),
    insert_row fuel j column_ptrs i keys_data values_data
    = Some (keys', values') ->
    exists m,
      length (rows_of keys') = length (rows_of keys_data) + m
      /\ length (rows_of values') = length (rows_of values_data) + m
      /\ (length column_ptrs <= j /\ m = 0
          \/ length column_ptrs = j + 2 * m).
Proof.
  intros Hadds.
  induction fuel as [|fuel IH];
    intros j keys_data values_data keys' values'; [discriminate|].
  cbn [insert_row].
  destruct (Nat.ltb_spec j (length column_ptrs)) as [Hlt|Hge].
  - destruct (column_ptrs !! j) as [kc|]; [|discriminate].
    destruct (column_ptrs !! (j + 1)) as [vc|] eqn:Hvc; [|discriminate].
    apply lookup_lt_Some in Hvc.
    destruct (insertFrom keys_data kc i) as [keys1|] eqn:Hkeys1;
      [|discriminate].
    destruct (insertFrom values_data vc i) as [values1|] eqn:Hvalues1;
      [|discriminate].
    apply Hadds in Hkeys1. apply Hadds in Hvalues1.
    intros Hrun. apply IH in Hrun as (m & Hk & Hv & Hlen).
    exists (S m). repeat split; [lia..|]. right. lia.
  - intros [= <- <-]. exists 0. repeat split; [lia..|]. left. lia.
Qed.

Lemma fill_rows_grows (column_ptrs : list (IColumn Field)) :
  insertFrom_adds_one_row ->
  forall (count i : nat) (keys_data values_data : IColumn Field)
         (offsets : list N) (current_offset : N)
         (keys' values' : IColumn Field) (offsets' : list N),
    fill_rows count i column_ptrs keys_data values_data offsets current_offset
    = Some (keys', values', offsets') ->
    exists m,
      (0 < count -> length column_ptrs = 2 * m)
      /\ length (rows_of keys') = length (rows_of keys_data) + count * m
      /\ length (rows_of values') = length (rows_of values_data) + count * m
      /\ length offsets' = length offsets + count.
Proof.
  intros Hadds.
  induction count as [|count IH];
    intros i keys_data values_data offsets current_offset keys' values'
      offsets'.
  - intros [= <- <- <-]. exists 0. repeat split; lia.
  - cbn [fill_rows].
    destruct (insert_row _ 0 column_ptrs i keys_data values_data)
      as [[k1 v1]|] eqn:Hrow; [|discriminate].
    apply (insert_row_grows _ _ Hadds) in Hrow as (m & Hk & Hv & Hlen).
    intros Hrest. apply IH in Hrest as (m' & Hm' & Hk' & Hv' & Ho').
    rewrite length_app in Ho'. simpl in Ho'.
    assert (Hcols : length column_ptrs = 2 * m) by lia.
    exists m. destruct count as [|count].
    + repeat split; lia.
    + assert (m' = m) by lia. subst m'. repeat split; lia.
Qed.

(** X17: whenever executeImpl of map runs to its end on arguments of any
    kind, with the columns created empty and each insertion that is defined
    adding one row, its result is a well-formed map column: the result type
    is a map type, there is one offset for each row, and keys and values
    have as many rows; and with at least one row the number of arguments is
    even and each row has half as many pairs. *)
Theorem executeImpl_returns_aligned_map
    (arguments : list ColumnWithTypeAndName) (result_type : DataType)
    (input_rows_count : nat) (result : IColumn Field) :
  creates_empty_columns ->
  insertFrom_adds_one_row ->
  arguments <> [] ->
  executeImpl arguments result_type input_rows_count = Some result ->
  exists key_type value_type keys_data values_data offsets,
    result_type = DataTypeMap key_type value_type
    /\ result
       = ColumnMap
           (ColumnArray (ColumnTuple [keys_data; values_data]) offsets)
    /\ length offsets = input_rows_count
    /\ length (rows_of keys_data) = length (rows_of values_data)
    /\ (0 < input_rows_count ->
        length arguments mod 2 = 0
        /\ length (rows_of keys_data)
           = input_rows_count * (length arguments / 2)).
Proof.
  intros Hcreate Hadds Hargs. unfold executeImpl.
  destruct (Nat.eqb_spec (length arguments) 0) as [Hzero|_].
  { destruct arguments; [contradiction | discriminate]. }
  destruct result_type as [| | | | | | |key_type value_type]; try discriminate.
  destruct (fill_rows _ _ _ _ _ _ _) as [[[k v] o]|] eqn:Hrun;
    [|discriminate].
  intros [= <-].
  apply (fill_rows_grows _ Hadds) in Hrun as (m & Hm & Hk & Hv & Ho).
  rewrite length_imap in Hm. rewrite Hcreate in Hk, Hv. simpl in Hk, Hv, Ho.
  exists key_type, value_type, k, v, o.
  split; [reflexivity|]. split; [reflexivity|]. split; [lia|].
  split; [lia|]. intros Hpos. rewrite (Hm Hpos). split.
  - apply even_position.
  - rewrite half_double. lia.
Qed.


(** *** Properties of the return types of the other functions *)

(** X19: getReturnTypeImpl of mapKeys returns the array of the key type, and
    that of mapValues the array of the value type, exactly for one argument
    of a map type; both throw NUMBER_OF_ARGUMENTS_DOESNT_MATCH exactly when
    the number of arguments is not 1, throw ILLEGAL_TYPE_OF_ARGUMENT
    otherwise, and never read past the end of the arguments. *)
Theorem mapKeys_mapValues_return_type
    (arguments : list ColumnWithTypeAndName) (t : DataType) :
  (mapKeys_getReturnTypeImpl arguments = Some (Returned t)
   <-> exists arg key_type value_type,
         arguments = [arg]
         /\ arg_type arg = DataTypeMap key_type value_type
         /\ t = DataTypeArray key_type)
  /\ (mapValues_getReturnTypeImpl arguments = Some (Returned t)
      <-> exists arg key_type value_type,
            arguments = [arg]
            /\ arg_type arg = DataTypeMap key_type value_type
            /\ t = DataTypeArray value_type)
  /\ ((exists e,
          mapKeys_getReturnTypeImpl arguments = Some (Thrown e)
          /\ code e = NUMBER_OF_ARGUMENTS_DOESNT_MATCH)
      <-> length arguments <> 1)
  /\ ((exists e,
          mapValues_getReturnTypeImpl arguments = Some (Thrown e)
          /\ code e = NUMBER_OF_ARGUMENTS_DOESNT_MATCH)
      <-> length arguments <> 1)
  /\ (exists keys_result values_result,
         mapKeys_getReturnTypeImpl arguments = Some keys_result
         /\ mapValues_getReturnTypeImpl arguments = Some values_result
         /\ forall e,
             keys_result = Thrown e \/ values_result = Thrown e ->
             code e = NUMBER_OF_ARGUMENTS_DOESNT_MATCH
             \/ code e = ILLEGAL_TYPE_OF_ARGUMENT).
Proof.
  unfold mapKeys_getReturnTypeImpl, mapValues_getReturnTypeImpl.
  destruct arguments as [|arg [|arg2 rest]].
  - simpl. repeat split; try discriminate.
    + intros (? & ? & ? & [=] & _).
    + intros (? & ? & ? & [=] & _).
    + eauto.
    + eauto.
    + do 2 eexists. repeat split. intros e [[= <-]|[= <-]]; now left.
  - cbn [length Nat.eqb negb lookup list_lookup].
    split; [|split; [|split; [|split]]].
    + split.
      * destruct (arg_type arg) eqn:Htype; intros [= <-]. eauto 6.
      * intros (a & k & v & [= <-] & Hmap & ->). now rewrite Hmap.
    + split.
      * destruct (arg_type arg) eqn:Htype; intros [= <-]. eauto 6.
      * intros (a & k & v & [= <-] & Hmap & ->). now rewrite Hmap.
    + split; [|intros H; now contradiction H].
      intros (e & Hthrow & Hcode).
      destruct (arg_type arg); inversion Hthrow; subst; discriminate.
    + split; [|intros H; now contradiction H].
      intros (e & Hthrow & Hcode).
      destruct (arg_type arg); inversion Hthrow; subst; discriminate.
    + destruct (arg_type arg); do 2 eexists;
        (split; [reflexivity|]); (split; [reflexivity|]);
        intros e [[= <-]|[= <-]]; now right.
  - simpl. repeat split; try discriminate.
    + intros (? & ? & ? & [=] & _).
    + intros (? & ? & ? & [=] & _).
    + eauto.
    + eauto.
    + do 2 eexists. repeat split. intros e [[= <-]|[= <-]]; now left.
Qed.

(** X20: whatever type getReturnTypeImpl of map returns is a type that
    mapKeys and mapValues take: for an argument of that type they return
    the array of the least supertype of the types at the even positions and
    the array of the least supertype of those at the odd positions. *)
Theorem map_type_goes_into_mapKeys_mapValues (types : list DataType)
    (t : DataType) (column_ : IColumn Field) (name_ : string) :
  getReturnTypeImpl types = Some (Returned t) ->
  exists key_type value_type,
    getLeastSupertype (at_even types) = Returned key_type
    /\ getLeastSupertype (at_odd types) = Returned value_type
    /\ t = DataTypeMap key_type value_type
    /\ mapKeys_getReturnTypeImpl [mkArgument column_ t name_]
       = Some (Returned (DataTypeArray key_type))
    /\ mapValues_getReturnTypeImpl [mkArgument column_ t name_]
       = Some (Returned (DataTypeArray value_type)).
Proof.
  destruct (length types mod 2) as [|r] eqn:Hmod.
  - rewrite getReturnTypeImpl_even by assumption.
    destruct (getLeastSupertype (at_even types)) as [k|e1]; [|discriminate].
    destruct (getLeastSupertype (at_odd types)) as [v|e2]; [|discriminate].
    intros [= <-]. exists k, v. repeat split.
  - unfold getReturnTypeImpl. rewrite Hmod. discriminate.
Qed.

(** X21: getReturnTypeImpl of mapContainsKeyLike returns UInt8 exactly for
    two arguments, the first of a map type with a String or FixedString
    key, the second of type String; it throws
    NUMBER_OF_ARGUMENTS_DOESNT_MATCH exactly when the number of arguments is
    not 2, throws ILLEGAL_TYPE_OF_ARGUMENT otherwise, and never reads past
    the end of the arguments. *)
Theorem mapContainsKeyLike_return_type
    (arguments : list ColumnWithTypeAndName) :
  (forall t,
      mapContainsKeyLike_getReturnTypeImpl arguments = Some (Returned t)
      <-> t = DataTypeUInt8
          /\ exists arg0 arg1 key_type value_type,
              arguments = [arg0; arg1]
              /\ arg_type arg0 = DataTypeMap key_type value_type
              /\ isStringOrFixedString key_type = true
              /\ arg_type arg1 = DataTypeString)
  /\ ((exists e,
          mapContainsKeyLike_getReturnTypeImpl arguments = Some (Thrown e)
          /\ code e = NUMBER_OF_ARGUMENTS_DOESNT_MATCH)
      <-> length arguments <> 2)
  /\ (exists result,
         mapContainsKeyLike_getReturnTypeImpl arguments = Some result
         /\ forall e,
             result = Thrown e ->
             code e = NUMBER_OF_ARGUMENTS_DOESNT_MATCH
             \/ code e = ILLEGAL_TYPE_OF_ARGUMENT).
Proof.
  unfold mapContainsKeyLike_getReturnTypeImpl.
  destruct arguments as [|arg0 [|arg1 [|arg2 rest]]].
  1, 2, 4:
    simpl; split; [|split];
    [ intros t; split;
      [discriminate | intros (_ & ? & ? & ? & ? & [=] & _)]
    | split; [intros _; simpl; lia | eauto]
    | eexists; split; [reflexivity|]; intros e [= <-]; now left ].
  cbn [length Nat.eqb negb lookup list_lookup].
  split; [|split].
  - intros t. split.
    + destruct (arg_type arg0) as [| | | | | | |k v] eqn:H0; try discriminate.
      destruct (arg_type arg1) eqn:H1; try discriminate.
      destruct (isStringOrFixedString k) eqn:Hk; [|discriminate].
      intros [= <-]. split; [reflexivity|]. exists arg0, arg1, k, v. auto.
    + intros (-> & a0 & a1 & k & v & [= <- <-] & -> & Hk & ->).
      now rewrite Hk.
  - split; [|intros H; now contradiction H].
    intros (e & Hthrow & Hcode).
    destruct (arg_type arg0) as [| | | | | | |k v];
      try (injection Hthrow as <-; discriminate).
    destruct (arg_type arg1);
      try (injection Hthrow as <-; discriminate).
    destruct (isStringOrFixedString k);
      [discriminate | injection Hthrow as <-; discriminate].
  - destruct (arg_type arg0) as [| | | | | | |k v];
      try (eexists; split; [reflexivity|]; intros e [= <-]; now right).
    destruct (arg_type arg1);
      try (eexists; split; [reflexivity|]; intros e [= <-]; now right).
    destruct (isStringOrFixedString k);
      eexists; (split; [reflexivity|]); [discriminate|].
    intros e [= <-]. now right.
Qed.

End Functions.

(** *** Concrete instances *)

(** A sample of the least supertype: the common type of a list of equal
    types, Nothing for no type at all, no supertype otherwise. *)
Definition sample_least_supertype (types : list DataType) : outcome DataType :=
  match types with
  | [] => Returned DataTypeNothing
  | t :: rest =>
      if forallb (fun u => bool_decide (u = t)) rest then Returned t
      else Thrown (mkException (OTHER_ERROR 386) "no supertype")
  end.

(** The values of the samples: numbers, and the rows of tuple and array
    columns (a row of a map column is the array of its pairs). *)
Inductive Value : Type :=
  | VNum (n : N)
  | VTuple (elements : list Value)
  | VArray (elements : list Value).

(** The rows of a tuple column from the rows of its columns. *)
Fixpoint transpose {A : Type} (columns : list (list A)) : list (list A) :=
  match columns with
  | [] => []
  | [c] => map (fun x => [x]) c
  | c :: rest => zip_with cons c (transpose rest)
  end.

(** The rows of an array column from the rows of its data: row [i] runs
    from the offset before [i] to offset [i]. *)
Fixpoint slices {A : Type} (rows : list A) (previous : N) (offsets : list N)
  : list (list A) :=
  match offsets with
  | [] => []
  | offset :: rest =>
      take (N.to_nat (offset - previous)) (drop (N.to_nat previous) rows)
      :: slices rows offset rest
  end.

(** A sample of the rows of a column, read through its structure. *)
Fixpoint sample_rows (c : IColumn Value) : list Value :=
  match c with
  | ColumnVector rows => rows
  | ColumnConst value s => replicate s value
  | ColumnTuple columns => map VTuple (transpose (map sample_rows columns))
  | ColumnArray data offsets => map VArray (slices (sample_rows data) 0 offsets)
  | ColumnMap nested => sample_rows nested
  end.

(** A sample of the column operations: a column under construction is kept
    as the list of its rows, whatever its type, and an insertion appends the
    row read from the source, of any kind. *)
Definition sample_createColumn (type_ : DataType) : IColumn Value :=
  ColumnVector [].

Definition sample_full (c : IColumn Value) : IColumn Value :=
  match c with
  | ColumnConst value s => ColumnVector (replicate s value)
  | _ => c
  end.

Definition sample_insertFrom (dst src : IColumn Value) (n : nat)
  : option (IColumn Value) :=
  match sample_rows src !! n with
  | Some x => Some (ColumnVector (sample_rows dst ++ [x]))
  | None => None
  end.

(** A sample of the cast: the column as it is. *)
Definition sample_cast (arg : @ColumnWithTypeAndName Value)
    (to_type : DataType) : IColumn Value :=
  arg_column arg.

Definition sample_default (type_ : DataType) : Value := VNum 0.

Definition column_of_numbers (numbers : list N) : IColumn Value :=
  ColumnVector (map VNum numbers).

(** Two keys and two values for each of two rows; the second key is
    constant. *)
Definition sample_arguments : list (@ColumnWithTypeAndName Value) :=
  [mkArgument (column_of_numbers [1; 2]%N) DataTypeString "k1";
   mkArgument (column_of_numbers [10; 20]%N) DataTypeInt32 "v1";
   mkArgument (ColumnConst (VNum 5) 2) DataTypeString "k2";
   mkArgument (column_of_numbers [30; 40]%N) DataTypeInt32 "v2"].

(** A key and a map for each of two rows: the map of the first row has one
    pair, that of the second row two. *)
Definition sample_nested_arguments : list (@ColumnWithTypeAndName Value) :=
  [mkArgument (column_of_numbers [1; 2]%N) DataTypeUInt8 "k";
   mkArgument
     (ColumnMap
        (ColumnArray
           (ColumnTuple [column_of_numbers [10; 11; 12]%N;
                         column_of_numbers [20; 21; 22]%N])
           [1; 3]%N))
     (DataTypeMap DataTypeUInt8 DataTypeUInt8) "m"].

Example getReturnTypeImpl_sample :
  getReturnTypeImpl sample_least_supertype
    [DataTypeString; DataTypeInt32; DataTypeString; DataTypeInt32]
  = Some (Returned (DataTypeMap DataTypeString DataTypeInt32))
  /\ getReturnTypeImpl sample_least_supertype [DataTypeString]
     = Some (Thrown
               (mkException NUMBER_OF_ARGUMENTS_DOESNT_MATCH
                  "Function map requires even number of arguments, but 1 given"))
  /\ getReturnTypeImpl sample_least_supertype [DataTypeString; DataTypeInt32;
                                               DataTypeUInt8; DataTypeInt32]
     = Some (Thrown (mkException (OTHER_ERROR 386) "no supertype")).
Proof. repeat split. Qed.

Example executeImpl_sample :
  executeImpl sample_cast sample_default sample_createColumn sample_full
    sample_insertFrom sample_arguments
    (DataTypeMap DataTypeString DataTypeInt32) 2
  = Some (ColumnMap
            (ColumnArray
               (ColumnTuple [column_of_numbers [1; 5; 2; 5]%N;
                             column_of_numbers [10; 30; 20; 40]%N])
               [2; 4]%N)).
Proof. reflexivity. Qed.

Example executeImpl_nested_sample :
  executeImpl sample_cast sample_default sample_createColumn sample_full
    sample_insertFrom sample_nested_arguments
    (DataTypeMap DataTypeUInt8 (DataTypeMap DataTypeUInt8 DataTypeUInt8)) 2
  = Some (ColumnMap
            (ColumnArray
               (ColumnTuple
                  [column_of_numbers [1; 2]%N;
                   ColumnVector
                     [VArray [VTuple [VNum 10; VNum 20]];
                      VArray [VTuple [VNum 11; VNum 21];
                              VTuple [VNum 12; VNum 22]]]])
               [1; 2]%N)).
Proof. reflexivity. Qed.

Lemma sample_least_supertype_code (types : list DataType) (e : Exception) :
  sample_least_supertype types = Thrown e ->
  code e <> NUMBER_OF_ARGUMENTS_DOESNT_MATCH.
Proof.
  destruct types as [|t rest]; simpl; [discriminate|].
  destruct (forallb _ rest); [discriminate|].
  intros H. injection H as <-. discriminate.
Defined.

Lemma getReturnTypeImpl_map_type_witness :
  let arguments :=
    [DataTypeString; DataTypeInt32; DataTypeString; DataTypeInt32] in
  length arguments mod 2 = 0
  /\ sample_least_supertype (at_even arguments) = Returned DataTypeString
  /\ sample_least_supertype (at_odd arguments) = Returned DataTypeInt32
  /\ getReturnTypeImpl sample_least_supertype arguments
     = Some (Returned (DataTypeMap DataTypeString DataTypeInt32)).
Proof.
  intros arguments.
  assert (Heven : length arguments mod 2 = 0) by reflexivity.
  assert (Hk : sample_least_supertype (at_even arguments)
               = Returned DataTypeString) by reflexivity.
  assert (Hv : sample_least_supertype (at_odd arguments)
               = Returned DataTypeInt32) by reflexivity.
  repeat (split; [assumption|]).
  destruct (getReturnTypeImpl_map_type sample_least_supertype arguments
              sample_least_supertype_code) as [_ Hreturns].
  exact (Hreturns Heven _ _ Hk Hv).
Defined.

Lemma sample_creates_empty_columns :
  creates_empty_columns sample_createColumn sample_rows.
Proof. intros type_. reflexivity. Defined.

Lemma sample_full_column_keeps_rows :
  full_column_keeps_rows sample_full sample_rows.
Proof. intros c. destruct c; reflexivity. Defined.

Lemma sample_insertFrom_appends_row :
  insertFrom_appends_row sample_insertFrom sample_rows.
Proof.
  intros dst src n x Hx. unfold sample_insertFrom. rewrite Hx.
  eexists. split; reflexivity.
Defined.

Lemma sample_insertFrom_adds_one_row :
  insertFrom_adds_one_row sample_insertFrom sample_rows.
Proof.
  intros dst src n dst'. unfold sample_insertFrom.
  destruct (sample_rows src !! n) as [x|]; [|discriminate].
  intros [= <-]. simpl. rewrite length_app. simpl. lia.
Defined.

Lemma sample_nested_arguments_rows (j : nat)
    (arg : @ColumnWithTypeAndName Value) :
  sample_nested_arguments !! j = Some arg ->
  2 <= length (sample_rows
                 (sample_cast arg
                    (if j mod 2 =? 0 then DataTypeUInt8
                     else DataTypeMap DataTypeUInt8 DataTypeUInt8))).
Proof.
  destruct j as [|[|j]]; simpl; intros H; try discriminate;
    injection H as <-; simpl; lia.
Defined.

Lemma executeImpl_map_rows_witness :
  length sample_nested_arguments <> 0
  /\ length sample_nested_arguments mod 2 = 0
  /\ exists keys_data values_data offsets,
      executeImpl sample_cast sample_default sample_createColumn sample_full
        sample_insertFrom sample_nested_arguments
        (DataTypeMap DataTypeUInt8 (DataTypeMap DataTypeUInt8 DataTypeUInt8))
        2
      = Some (ColumnMap
                (ColumnArray (ColumnTuple [keys_data; values_data]) offsets))
      /\ offsets !! 1 = Some 2%N
      /\ sample_rows values_data !! 1
         = Some (VArray [VTuple [VNum 11; VNum 21];
                         VTuple [VNum 12; VNum 22]]).
Proof.
  assert (Hn : length sample_nested_arguments <> 0) by discriminate.
  assert (Heven : length sample_nested_arguments mod 2 = 0) by reflexivity.
  split; [exact Hn|]. split; [exact Heven|].
  destruct (executeImpl_map_rows sample_cast sample_default
              sample_createColumn sample_full sample_insertFrom sample_rows
              sample_nested_arguments DataTypeUInt8
              (DataTypeMap DataTypeUInt8 DataTypeUInt8) 2) as [_ Hrows].
  destruct (Hrows Hn Heven sample_creates_empty_columns
              sample_full_column_keeps_rows sample_insertFrom_appends_row
              sample_nested_arguments_rows eq_refl)
    as (keys_data & values_data & offsets & Hrun & _ & _ & _ & Hoffs & Hcells).
  exists keys_data, values_data, offsets.
  split; [exact Hrun|]. split; [apply (Hoffs 1); lia|].
  destruct (Hcells 1 0) as (ka & va & k & v & _ & Hva & _ & Hv & _ & Hcell);
    [lia | simpl; lia |].
  injection Hva as <-. simpl in Hv. injection Hv as <-. exact Hcell.
Defined.

(** *** Concrete instances of the further properties *)

Lemma getReturnTypeImpl_throws_of_callee_only_witness :
  let types := [DataTypeString; DataTypeInt32; DataTypeUInt8; DataTypeInt32] in
  length types mod 2 = 0
  /\ exists e,
      getReturnTypeImpl sample_least_supertype types = Some (Thrown e)
      /\ sample_least_supertype (at_even types) = Thrown e.
Proof.
  intros types.
  assert (Heven : length types mod 2 = 0) by reflexivity.
  split; [exact Heven|].
  destruct (getReturnTypeImpl_throws_of_callee_only sample_least_supertype
              types) as (result & Hrun & Hcallee).
  destruct result as [t|e]; [discriminate Hrun|].
  exists e. split; [exact Hrun|].
  destruct (Hcallee Heven e eq_refl) as [Hkeys | [[k Hk] _]];
    [exact Hkeys | discriminate Hk].
Defined.

Lemma executeImpl_returns_aligned_map_witness :
  sample_nested_arguments <> []
  /\ exists result keys_data values_data offsets,
      executeImpl sample_cast sample_default sample_createColumn sample_full
        sample_insertFrom sample_nested_arguments
        (DataTypeMap DataTypeUInt8 (DataTypeMap DataTypeUInt8 DataTypeUInt8))
        2
      = Some result
      /\ result
         = ColumnMap
             (ColumnArray (ColumnTuple [keys_data; values_data]) offsets)
      /\ length offsets = 2
      /\ length (sample_rows keys_data) = length (sample_rows values_data).
Proof.
  assert (Hargs : sample_nested_arguments <> []) by discriminate.
  split; [exact Hargs|].
  destruct (executeImpl sample_cast sample_default sample_createColumn
              sample_full sample_insertFrom sample_nested_arguments
              (DataTypeMap DataTypeUInt8
                 (DataTypeMap DataTypeUInt8 DataTypeUInt8)) 2)
    as [result|] eqn:Hrun; [|discriminate].
  destruct (executeImpl_returns_aligned_map sample_cast sample_default
              sample_createColumn sample_full sample_insertFrom sample_rows
              sample_nested_arguments _ 2 result
              sample_creates_empty_columns sample_insertFrom_adds_one_row
              Hargs Hrun)
    as (kt & vt & k & v & o & _ & Hshape & Hoffsets & Hsame & _).
  exists result, k, v, o. auto.
Defined.


Lemma mapKeys_mapValues_return_type_witness :
  let arg :=
    mkArgument (ColumnVector [1%N])
      (DataTypeMap DataTypeString DataTypeInt32) "m" in
  mapKeys_getReturnTypeImpl [arg]
  = Some (Returned (DataTypeArray DataTypeString))
  /\ exists a key_type value_type,
      [arg] = [a]
      /\ arg_type a = DataTypeMap key_type value_type
      /\ DataTypeArray DataTypeString = DataTypeArray key_type.
Proof.
  intros arg.
  assert (Hrun : mapKeys_getReturnTypeImpl [arg]
                 = Some (Returned (DataTypeArray DataTypeString)))
    by reflexivity.
  split; [exact Hrun|].
  destruct (mapKeys_mapValues_return_type [arg]
              (DataTypeArray DataTypeString)) as [[Hkeys _] _].
  exact (Hkeys Hrun).
Defined.

Lemma map_type_goes_into_mapKeys_mapValues_witness :
  let types := [DataTypeString; DataTypeInt32] in
  let t := DataTypeMap DataTypeString DataTypeInt32 in
  getReturnTypeImpl sample_least_supertype types = Some (Returned t)
  /\ mapValues_getReturnTypeImpl [mkArgument (ColumnVector [1%N]) t "m"]
     = Some (Returned (DataTypeArray DataTypeInt32)).
Proof.
  intros types t.
  assert (Hrun : getReturnTypeImpl sample_least_supertype types
                 = Some (Returned t)) by reflexivity.
  split; [exact Hrun|].
  destruct (map_type_goes_into_mapKeys_mapValues sample_least_supertype
              types t (ColumnVector [1%N]) "m" Hrun)
    as (k & v & _ & Hv & _ & _ & Hvalues).
  injection Hv as <-. exact Hvalues.
Defined.

Lemma mapContainsKeyLike_return_type_witness :
  let arguments :=
    [mkArgument (ColumnVector [1%N])
       (DataTypeMap (DataTypeFixedString 4) DataTypeInt32) "m";
     mkArgument (ColumnVector [2%N]) DataTypeString "pattern"] in
  mapContainsKeyLike_getReturnTypeImpl arguments
  = Some (Returned DataTypeUInt8)
  /\ mapContainsKeyLike_getReturnTypeImpl (take 1 arguments)
     <> Some (Returned DataTypeUInt8).
Proof.
  intros arguments.
  destruct (mapContainsKeyLike_return_type arguments) as (Hreturns & _).
  split.
  - apply (Hreturns DataTypeUInt8). split; [reflexivity|].
    do 4 eexists. repeat split.
  - discriminate.
Defined.

End FunctionMap.
